(** * orval: the object resolver [getObject]

    A shallow embedding of the [getObject] getter of [src/core/getters],
    of the type guards of [src/utils/is] and of the file utilities of
    [src/utils/file], followed by their properties.

    Schema nodes are untyped JavaScript values: the resolver itself decides
    the shape of a node by testing which of its fields are truthy, so the
    model keeps the values as the runtime sees them.  Asynchronous
    collaborators return promises; a promise here is a finite chain of
    suspensions ending in a fulfilment or a rejection. *)

From Stdlib Require Import String Ascii List ZArith Bool Arith Lia.
From Stdlib Require Import Permutation Sorted.
From Stdlib Require DecimalString.
Import ListNotations.
Open Scope string_scope.

Set Implicit Arguments.
Set Warnings "-register-all".

(* ================================================================= *)
(** ** JavaScript values *)

(** A JSON-like value.  An object is the list of its own enumerable
    string-keyed properties in the order they were inserted, which for a
    parsed document is the order they are declared in; an array is the list
    of its elements.  Numbers are integers (no schema keyword read by the
    resolver is numeric). *)
Inductive JsValue : Type :=
| JsUndefined
| JsNull
| JsBool (b : bool)
| JsNumber (z : Z)
| JsString (s : string)
| JsArray (elements : list JsValue)
| JsObject (fields : list (string * JsValue)).

(** [ToBoolean]: what [if (v)], [v ? a : b], [!!v] and [Boolean(v)] test. *)
Definition truthy (v : JsValue) : bool :=
  match v with
  | JsUndefined | JsNull => false
  | JsBool b => b
  | JsNumber z => negb (Z.eqb z 0)
  | JsString s => negb (String.eqb s EmptyString)
  | JsArray _ | JsObject _ => true
  end.

Definition isNullish (v : JsValue) : bool :=
  match v with
  | JsUndefined | JsNull => true
  | _ => false
  end.

(** First binding of a key in a list of entries. *)
Fixpoint lookup {V : Type} (k : string) (l : list (string * V)) : option V :=
  match l with
  | [] => None
  | (k', v) :: rest => if String.eqb k k' then Some v else lookup k rest
  end.

(** [v.k] for a receiver that is not [null] or [undefined], and for the
    keys the resolver reads by name ([$ref], [allOf], [oneOf], [anyOf],
    [properties], [required], [readOnly], [additionalProperties], [type]):
    an object answers with its own field, every other value with
    [undefined]. *)
Definition prop (v : JsValue) (k : string) : JsValue :=
  match v with
  | JsObject fields =>
      match lookup k fields with
      | Some x => x
      | None => JsUndefined
      end
  | _ => JsUndefined
  end.

(** Outcome of a synchronous evaluation: a value or a thrown error. *)
Inductive JsError : Type :=
| TypeError (msg : string)
| Failure (msg : string).

Inductive Outcome (A : Type) : Type :=
| Returned (a : A)
| Thrown (e : JsError).
Arguments Thrown {A} e.

(** [v.k] for any receiver: reading a field of [null] or [undefined]
    throws. *)
Definition readProp (v : JsValue) (k : string) : Outcome JsValue :=
  if isNullish v
  then Thrown (TypeError "Cannot read properties of null or undefined")
  else Returned (prop v k).

Definition indexKey (n : nat) : string :=
  DecimalString.NilZero.string_of_uint (Nat.to_uint n).

Fixpoint indexed_from {V : Type} (n : nat) (l : list V) : list (string * V) :=
  match l with
  | [] => []
  | x :: rest => (indexKey n, x) :: indexed_from (S n) rest
  end.

(** The one-character strings of a string, in order. *)
Fixpoint characters (s : string) : list JsValue :=
  match s with
  | EmptyString => []
  | String c rest => JsString (String c EmptyString) :: characters rest
  end.

(** The value of a decimal digit, and of a text made of digits. *)
Definition digitValue (c : ascii) : option N :=
  let n := N_of_ascii c in
  if (N.leb 48 n && N.leb n 57)%bool then Some (n - 48)%N else None.

Fixpoint digitsValue (acc : N) (s : string) : option N :=
  match s with
  | EmptyString => Some acc
  | String c rest =>
      match digitValue c with
      | Some d => digitsValue (10 * acc + d)%N rest
      | None => None
      end
  end.

(** An array index: the canonical decimal text, without a leading zero, of
    an integer from 0 to 2^32 - 2. *)
Definition arrayIndex (k : string) : option N :=
  match k with
  | EmptyString => None
  | String c rest =>
      match rest with
      | String _ _ =>
          if Ascii.eqb c "0" then None
          else match digitsValue 0 k with
               | Some n => if N.leb n 4294967294 then Some n else None
               | None => None
               end
      | EmptyString => digitValue c
      end
  end.

Definition isArrayIndex (k : string) : bool :=
  match arrayIndex k with
  | Some _ => true
  | None => false
  end.

(** The index of a key that is an array index. *)
Definition keyIndex {V : Type} (entry : string * V) : N :=
  match arrayIndex (fst entry) with
  | Some n => n
  | None => 0%N
  end.

(** Stable insertion sort of entries by the index of their key. *)
Fixpoint insertByIndex {V : Type} (entry : string * V)
    (sorted : list (string * V)) : list (string * V) :=
  match sorted with
  | [] => [entry]
  | next :: rest =>
      if N.leb (keyIndex entry) (keyIndex next)
      then entry :: sorted
      else next :: insertByIndex entry rest
  end.

Definition sortByIndex {V : Type} (entries : list (string * V))
  : list (string * V) :=
  fold_right insertByIndex [] entries.

(** The own property keys of an ordinary object, as every enumeration
    yields them: the array indices in ascending numeric order, then the
    other keys in the order they were inserted. *)
Definition ownEntries {V : Type} (fields : list (string * V))
  : list (string * V) :=
  sortByIndex (filter (fun kv => isArrayIndex (fst kv)) fields)
  ++ filter (fun kv => negb (isArrayIndex (fst kv))) fields.

(** [Object.entries(v)] for a truthy [v] (the resolver only calls it behind
    the guard [item.properties && ...]): the own entries of an object, the
    indexed elements of an array, the indexed characters of a string, and
    nothing for a boolean or a number. *)
Definition Object_entries (v : JsValue) : list (string * JsValue) :=
  match v with
  | JsObject fields => ownEntries fields
  | JsArray elements => indexed_from 0 elements
  | JsString s => indexed_from 0 (characters s)
  | _ => []
  end.

(** The spread [...v] inside an array literal: arrays and strings are
    iterable, other values throw. *)
Definition spread (v : JsValue) : Outcome (list JsValue) :=
  match v with
  | JsArray elements => Returned elements
  | JsString s => Returned (characters s)
  | _ => Thrown (TypeError "value is not iterable")
  end.

(** [arr.includes(key)] for a string [key]: some element is that string. *)
Definition includes (arr : list JsValue) (key : string) : bool :=
  existsb (fun v => match v with
                    | JsString s => String.eqb s key
                    | _ => false
                    end) arr.

(** lodash [omit(object, key)]: a fresh object with every field of
    [object] but [key], order kept. *)
Definition omit_fields (fields : list (string * JsValue)) (k : string)
  : list (string * JsValue) :=
  filter (fun kv => negb (String.eqb (fst kv) k)) fields.

Definition omit (v : JsValue) (k : string) : JsValue :=
  match v with
  | JsObject fields => JsObject (omit_fields fields k)
  | JsArray elements => JsObject (indexed_from 0 elements)
  | JsString s => JsObject (indexed_from 0 (characters s))
  | _ => JsObject []
  end.

(* ================================================================= *)
(** ** Promises *)

(** A promise that settles after finitely many suspensions. *)
Inductive Promise (A : Type) : Type :=
| Fulfilled (a : A)
| Rejected (e : JsError)
| Pending (p : Promise A).
Arguments Rejected {A} e.

(** [await p] followed by the continuation [k]. *)
Fixpoint await {A B : Type} (p : Promise A) (k : A -> Promise B) : Promise B :=
  match p with
  | Fulfilled a => k a
  | Rejected e => Rejected e
  | Pending p' => Pending (await p' k)
  end.

(** A synchronous evaluation inside an [async] function: a throw rejects
    the function's promise. *)
Definition attempt {A B : Type} (o : Outcome A) (k : A -> Promise B) : Promise B :=
  match o with
  | Returned a => k a
  | Thrown e => Rejected e
  end.

Notation "x <- p ;; k" := (await p (fun x => k))
  (at level 61, p at next level, right associativity).
Notation "x <~ o ;; k" := (attempt o (fun x => k))
  (at level 61, o at next level, right associativity).

(** What the promise settles to, and after how many suspensions. *)
Fixpoint settle {A : Type} (p : Promise A) : Outcome A :=
  match p with
  | Fulfilled a => Returned a
  | Rejected e => Thrown e
  | Pending p' => settle p'
  end.

Fixpoint latency {A : Type} (p : Promise A) : nat :=
  match p with
  | Pending p' => S (latency p')
  | _ => 0
  end.

Fixpoint delay {A : Type} (n : nat) (p : Promise A) : Promise A :=
  match n with
  | O => p
  | S m => Pending (delay m p)
  end.

(* ================================================================= *)
(** ** Results and the resolution context *)

(** Modelled from the spec: [ResolverValue] ([src/types/resolvers]) is
    declared outside the files at hand.  Its fields are those of the object
    literals [getObject] returns: the type expression, the ordered imports,
    the ordered nested schemas, the two flags, the dispatch category and
    the optional echo of the source shape.  Imports and nested schemas are
    kept as the objects the collaborators hand back. *)
Record ResolverValue : Type := mkResolverValue {
  value : string;
  imports : list JsValue;
  schemas : list JsValue;
  isEnum : bool;
  type : string;
  isRef : bool;
  schema : option JsValue
}.

(** What [getRefInfo] resolves to: the synthesized name of the referenced
    entity and the key of the document it lives in, if any. *)
Record RefInfo : Type := mkRefInfo {
  refName : string;
  specKey : option string
}.

(** The object literal [{ name, specKey }]. *)
Definition importOf (info : RefInfo) : JsValue :=
  JsObject [("name", JsString (refName info));
            ("specKey", match specKey info with
                        | Some k => JsString k
                        | None => JsUndefined
                        end)].

(** The [separator] argument of [combineSchemas]. *)
Inductive Separator : Type := allOf | oneOf | anyOf.

Definition keyword (sep : Separator) : string :=
  match sep with
  | allOf => "allOf"
  | oneOf => "oneOf"
  | anyOf => "anyOf"
  end.

(** The part of a loaded OpenAPI document the resolver looks at:
    [components?.schemas], a map from schema name to schema node. *)
Module OpenAPI.
Record ComponentsObject : Type := mkComponents {
  schemas : option (list (string * JsValue))
}.
Record OpenAPIObject : Type := mkDocument {
  components : option ComponentsObject
}.
End OpenAPI.

(** Modelled from the spec: [ContextSpecs] ([src/types]) is declared
    outside the files at hand.  It carries the map from document key to
    loaded document and the key of the document being transformed; the
    fields are those [getObject] reads. *)
Record ContextSpecs : Type := mkContext {
  specs : list (string * OpenAPI.OpenAPIObject);
  target : string
}.

(** The members every plain object inherits from [Object.prototype]; all
    of them are truthy. *)
Definition objectPrototypeKeys : list string :=
  ["constructor"; "__defineGetter__"; "__defineSetter__"; "hasOwnProperty";
   "__lookupGetter__"; "__lookupSetter__"; "isPrototypeOf";
   "propertyIsEnumerable"; "toString"; "valueOf"; "__proto__";
   "toLocaleString"].

(** [!!context.specs[context.target]?.components?.schemas?.[k]]: the read
    of the dynamic key [k] finds the own field of the schemas object or,
    failing that, an inherited member. *)
Definition isTopLevelSchema (context : ContextSpecs) (k : string) : bool :=
  match lookup (target context) (specs context) with
  | None => false
  | Some doc =>
      match OpenAPI.components doc with
      | None => false
      | Some comps =>
          match OpenAPI.schemas comps with
          | None => false
          | Some table =>
              match lookup k table with
              | Some node => truthy node
              | None => existsb (String.eqb k) objectPrototypeKeys
              end
          end
      end
  end.

(* ================================================================= *)
(** ** Type guards ([src/utils/is]) *)

(** [Boolean(property.$ref)] *)
Definition isReference (property : JsValue) : Outcome bool :=
  match readProp property "$ref" with
  | Returned ref => Returned (truthy ref)
  | Thrown e => Thrown e
  end.

(** [typeof x === 'boolean'] *)
Definition isBoolean (x : JsValue) : bool :=
  match x with
  | JsBool _ => true
  | _ => false
  end.

(* ================================================================= *)
(** ** The collaborators of [getObject] *)

(** The functions [getObject] imports from the rest of the generator.  The
    three string transforms are pure; the resolvers are asynchronous and may
    reject.  [combineSchemas] receives its [items] as the value the resolver
    passes. *)
Record Collaborators : Type := mkCollaborators {
  pascal : string -> string;
  jsDoc : JsValue -> bool -> string;
  getKey : string -> string;
  getRefInfo : JsValue -> ContextSpecs -> Promise RefInfo;
  combineSchemas :
    JsValue -> option string -> Separator -> ContextSpecs -> Promise ResolverValue;
  resolveObject :
    JsValue -> option string -> ContextSpecs -> Promise ResolverValue;
  resolveValue :
    JsValue -> option string -> ContextSpecs -> Promise ResolverValue
}.

(** Modelled from the spec: [asyncReduce] ([src/utils/async-reduce]) is
    not among the files at hand.  Given an ordered sequence of items and an
    asynchronous step [(accumulator, item, index, fullList) -> accumulator]
    it applies the steps strictly in list order, each step starting from
    the accumulator the previous one settled to. *)
Fixpoint asyncReduce_from {Item Acc : Type} (arr : list Item)
    (reducer : Acc -> Item -> nat -> list Item -> Promise Acc)
    (index : nat) (rest : list Item) (acc : Acc) : Promise Acc :=
  match rest with
  | [] => Fulfilled acc
  | current :: rest' =>
      acc' <- reducer acc current index arr ;;
      asyncReduce_from arr reducer (S index) rest' acc'
  end.

Definition asyncReduce {Item Acc : Type} (array : list Item)
    (reducer : Acc -> Item -> nat -> list Item -> Promise Acc)
    (initValue : Acc) : Promise Acc :=
  asyncReduce_from array reducer 0 array initValue.

(* ================================================================= *)
(** ** [getObject] ([src/core/getters/object.ts]) *)

Definition nl : string := String (ascii_of_nat 10) EmptyString.

(** Truthiness of a string, as in [doc ? a : b]. *)
Definition nonEmpty (s : string) : bool := negb (String.eqb s EmptyString).

(** [propName || ''] *)
Definition orEmpty (propName : option string) : string :=
  match propName with
  | Some s => s
  | None => EmptyString
  end.

(** [v === s] for a string literal [s]. *)
Definition strictEqString (v : JsValue) (s : string) : bool :=
  match v with
  | JsString s' => String.eqb s' s
  | _ => false
  end.

(** [propName + 'Property']: string concatenation prints [undefined]. *)
Definition plusProperty (propName : option string) : string :=
  match propName with
  | Some s => s ++ "Property"
  | None => "undefined" ++ "Property"
  end.

(** The template literal of lines 111-113, as a function of the values it
    interpolates. *)
Definition memberLine (doc : string) (isReadOnly : bool) (key : string)
    (isRequired : bool) (memberType : string) : string :=
  nl ++ "  " ++ (if nonEmpty doc then doc ++ "  " else EmptyString)
     ++ (if isReadOnly then "readonly " else EmptyString)
     ++ key ++ (if isRequired then EmptyString else "?")
     ++ ": " ++ memberType ++ ";".

(** The initial accumulator of the fold (lines 122-130). *)
Definition emptyObject : ResolverValue :=
  {| value := EmptyString; imports := []; schemas := []; isEnum := false;
     type := "object"; isRef := false; schema := Some (JsObject []) |}.

(** In-place updates of the accumulator. *)
Definition appendValue (acc : ResolverValue) (text : string) : ResolverValue :=
  mkResolverValue (value acc ++ text) (imports acc) (schemas acc)
                  (isEnum acc) (type acc) (isRef acc) (schema acc).

Definition appendImports (acc : ResolverValue) (more : list JsValue) : ResolverValue :=
  mkResolverValue (value acc) (imports acc ++ more) (schemas acc)
                  (isEnum acc) (type acc) (isRef acc) (schema acc).

Definition appendSchemas (acc : ResolverValue) (more : list JsValue) : ResolverValue :=
  mkResolverValue (value acc) (imports acc) (schemas acc ++ more)
                  (isEnum acc) (type acc) (isRef acc) (schema acc).

Section Resolver.

Variable env : Collaborators.

(** [Array.isArray(item.required) ? item.required : []).includes(key)] *)
Definition isRequiredKey (item : JsValue) (key : string) : bool :=
  includes (match prop item "required" with
            | JsArray l => l
            | _ => []
            end) key.

(** Lines 86-95: the name hint handed to the member's resolution. *)
Definition memberPropName (name : option string) (context : ContextSpecs)
    (key : string) : option string :=
  let propName :=
    match name with
    | Some parent =>
        if nonEmpty parent
        then Some (pascal env parent ++ pascal env key)
        else None
    | None => None
    end in
  let isNameAlreadyTaken := isTopLevelSchema context (orEmpty propName) in
  if isNameAlreadyTaken then Some (plusProperty propName) else propName.

(** [item.readOnly || (schema as SchemaObject).readOnly]: the member is
    only read when the owner's flag is falsy. *)
Definition readOnlyFlag (item memberSchema : JsValue) : Outcome JsValue :=
  if truthy (prop item "readOnly")
  then Returned (prop item "readOnly")
  else readProp memberSchema "readOnly".

(** The reducer of lines 77-121. *)
Definition propertyStep (item : JsValue) (name : option string)
    (context : ContextSpecs) (acc : ResolverValue)
    (entry : string * JsValue) (index : nat)
    (arr : list (string * JsValue)) : Promise ResolverValue :=
  let '(key, memberSchema) := entry in
  let isRequired := isRequiredKey item key in
  let propName := memberPropName name context key in
  resolvedValue <- resolveObject env memberSchema propName context ;;
  isReadOnly <~ readOnlyFlag item memberSchema ;;
  let acc := if Nat.eqb index 0 then appendValue acc "{" else acc in
  let doc := jsDoc env memberSchema true in
  let acc := appendImports acc (imports resolvedValue) in
  let acc := appendValue acc
               (memberLine doc (truthy isReadOnly) (getKey env key)
                           isRequired (value resolvedValue)) in
  let acc := appendSchemas acc (schemas resolvedValue) in
  (* arr.length - 1 === index *)
  let acc := if Nat.eqb (length arr) (S index)
             then appendValue acc (nl ++ "}") else acc in
  Fulfilled acc.

(** [item.properties ? [...item.K, omit(item, K)] : item.K] *)
Definition compositionItems (item : JsValue) (sep : Separator)
  : Outcome JsValue :=
  if truthy (prop item "properties")
  then match spread (prop item (keyword sep)) with
       | Returned members =>
           Returned (JsArray (members ++ [omit item (keyword sep)]))
       | Thrown e => Thrown e
       end
  else Returned (prop item (keyword sep)).

Definition getObject (item : JsValue) (name : option string)
    (context : ContextSpecs) : Promise ResolverValue :=
  reference <~ isReference item ;;
  if reference then
    info <- getRefInfo env (prop item "$ref") context ;;
    Fulfilled {| value := refName info; imports := [importOf info];
                 schemas := []; isEnum := false; type := "object";
                 isRef := true; schema := None |}
  else if truthy (prop item "allOf") then
    items <~ compositionItems item allOf ;;
    combineSchemas env items name allOf context
  else if truthy (prop item "oneOf") then
    items <~ compositionItems item oneOf ;;
    combineSchemas env items name oneOf context
  else if truthy (prop item "anyOf") then
    items <~ compositionItems item anyOf ;;
    combineSchemas env items name anyOf context
  else if truthy (prop item "properties")
          && negb (Nat.eqb (length (Object_entries (prop item "properties"))) 0)
  then
    asyncReduce (Object_entries (prop item "properties"))
                (propertyStep item name context) emptyObject
  else if truthy (prop item "additionalProperties") then
    if isBoolean (prop item "additionalProperties") then
      Fulfilled {| value := "{ [key: string]: any }"; imports := [];
                   schemas := []; isEnum := false; type := "object";
                   isRef := false; schema := None |}
    else
      resolvedValue <- resolveValue env (prop item "additionalProperties")
                                    name context ;;
      (* the lists are arrays, so [x || []] is [x] *)
      Fulfilled {| value := "{[key: string]: " ++ value resolvedValue ++ "}";
                   imports := imports resolvedValue;
                   schemas := schemas resolvedValue;
                   isEnum := false; type := "object";
                   isRef := false; schema := None |}
  else
    Fulfilled {| value := if strictEqString (prop item "type") "object"
                          then "{}" else "unknown";
                 imports := []; schemas := []; isEnum := false;
                 type := "object"; isRef := false; schema := None |}.

End Resolver.

(* ================================================================= *)
(** ** A small instance to run the resolver on *)

Module Sample.

(** Upper-cases the first letter: enough of a PascalCase transform for
    one-word names. *)
Definition upper (c : ascii) : ascii :=
  let n := nat_of_ascii c in
  if (Nat.leb 97 n && Nat.leb n 122)%bool then ascii_of_nat (n - 32) else c.

Definition capitalise (s : string) : string :=
  match s with
  | EmptyString => EmptyString
  | String c rest => String (upper c) rest
  end.

(** The text after the last slash of a pointer. *)
Fixpoint lastSegment (acc s : string) : string :=
  match s with
  | EmptyString => acc
  | String c rest =>
      if Ascii.eqb c "/"%char
      then lastSegment EmptyString rest
      else lastSegment (acc ++ String c EmptyString) rest
  end.

Definition lastSegmentInfo (ref : JsValue) (context : ContextSpecs)
  : Promise RefInfo :=
  match ref with
  | JsString pointer =>
      Pending (Fulfilled {| refName := capitalise (lastSegment EmptyString pointer);
                            specKey := Some (target context) |})
  | _ => Rejected (Failure "unresolvable reference")
  end.

(** Resolves a primitive node to its [type], slower for strings than for
    the rest, and records the name hint it was given as a nested schema. *)
Definition resolvePrimitive (node : JsValue) (hint : option string)
    (context : ContextSpecs) : Promise ResolverValue :=
  let result :=
    {| value := match prop node "type" with
                | JsString t => t
                | _ => "unknown"
                end;
       imports := [];
       schemas := match hint with
                  | Some n => [JsString n]
                  | None => []
                  end;
       isEnum := false; type := "string"; isRef := false; schema := None |} in
  if strictEqString (prop node "type") "string"
  then delay 3 (Fulfilled result)
  else Fulfilled result.

(** Hands the items it received back as nested schemas. *)
Definition echoItems (items : JsValue) (name : option string)
    (sep : Separator) (context : ContextSpecs) : Promise ResolverValue :=
  Fulfilled {| value := keyword sep; imports := [];
               schemas := match items with
                          | JsArray l => l
                          | other => [other]
                          end;
               isEnum := false; type := "object"; isRef := false;
               schema := None |}.

Definition env : Collaborators :=
  {| pascal := capitalise;
     jsDoc := fun _ _ => EmptyString;
     getKey := fun key => key;
     getRefInfo := lastSegmentInfo;
     combineSchemas := echoItems;
     resolveObject := resolvePrimitive;
     resolveValue := resolvePrimitive |}.

(** The same collaborators with every resolution settling at once. *)
Definition eager : Collaborators :=
  {| pascal := capitalise;
     jsDoc := fun _ _ => EmptyString;
     getKey := fun key => key;
     getRefInfo :=
       fun ref context => match settle (lastSegmentInfo ref context) with
                          | Returned info => Fulfilled info
                          | Thrown e => Rejected e
                          end;
     combineSchemas := echoItems;
     resolveObject :=
       fun node hint context =>
         match settle (resolvePrimitive node hint context) with
         | Returned r => Fulfilled r
         | Thrown e => Rejected e
         end;
     resolveValue :=
       fun node hint context =>
         match settle (resolvePrimitive node hint context) with
         | Returned r => Fulfilled r
         | Thrown e => Rejected e
         end |}.

Definition stringNode : JsValue := JsObject [("type", JsString "string")].
Definition numberNode : JsValue := JsObject [("type", JsString "number")].

(** A document with a schema [PetStatus], and one with a schema under the
    empty name. *)
Definition petstore : ContextSpecs :=
  {| specs := [("petstore",
                OpenAPI.mkDocument
                  (Some (OpenAPI.mkComponents
                           (Some [("Pet", JsObject []);
                                  ("PetStatus", stringNode)]))))];
     target := "petstore" |}.


Definition emptyNamed : ContextSpecs :=
  {| specs := [("petstore",
                OpenAPI.mkDocument
                  (Some (OpenAPI.mkComponents
                           (Some [(EmptyString, stringNode)]))))];
     target := "petstore" |}.

(** [{ type: 'object', required: ['id'], properties: { id, status, tag } }] *)
Definition pet : JsValue :=
  JsObject [("type", JsString "object");
            ("required", JsArray [JsString "id"]);
            ("properties",
             JsObject [("id", numberNode);
                       ("status", stringNode);
                       ("tag", JsObject [("type", JsString "string");
                                         ("readOnly", JsBool true)])])].

(** A reference with a stray sibling, and the same reference alone. *)
Definition strayRef : JsValue :=
  JsObject [("$ref", JsString "#/components/schemas/pet");
            ("properties", JsObject [("stray", stringNode)])].

Definition bareRef : JsValue :=
  JsObject [("$ref", JsString "#/components/schemas/pet")].

(** A node with the three composition keywords and properties of its
    own. *)
Definition composed : JsValue :=
  JsObject [("allOf", JsArray [bareRef]);
            ("oneOf", JsArray [stringNode]);
            ("anyOf", JsArray [numberNode]);
            ("properties", JsObject [("id", numberNode)])].

(** [{ type: 'object', additionalProperties: false }] and its open and
    typed variants. *)
Definition closedObject : JsValue :=
  JsObject [("type", JsString "object");
            ("additionalProperties", JsBool false)].

Definition openObject : JsValue :=
  JsObject [("type", JsString "object");
            ("additionalProperties", JsBool true)].

Definition dictionary : JsValue :=
  JsObject [("type", JsString "object");
            ("additionalProperties", stringNode)].

Definition bareObject : JsValue := JsObject [("type", JsString "object")].

(** Properties declared in the order [b], [1], [a]. *)
Definition numbered : JsValue :=
  JsObject [("type", JsString "object");
            ("properties",
             JsObject [("b", numberNode); ("1", numberNode);
                       ("a", numberNode)])].

(** What the three properties of [pet] resolve to under the parent name
    [pet] in [petstore]. *)
Definition primitive (t hint : string) : ResolverValue :=
  {| value := t; imports := []; schemas := [JsString hint];
     isEnum := false; type := "string"; isRef := false; schema := None |}.

Definition petResults : list ResolverValue :=
  [primitive "number" "PetId";
   primitive "string" "PetStatusProperty";
   primitive "string" "PetTag"].

(** What [pet] itself resolves to under the name [pet] in [petstore]. *)
Definition petResolved : ResolverValue :=
  {| value := "{" ++ nl ++ "  id: number;"
                  ++ nl ++ "  status?: string;"
                  ++ nl ++ "  readonly tag?: string;"
                  ++ nl ++ "}";
     imports := [];
     schemas := [JsString "PetId"; JsString "PetStatusProperty";
                 JsString "PetTag"];
     isEnum := false; type := "object"; isRef := false;
     schema := Some (JsObject []) |}.

End Sample.


Unset Implicit Arguments.

(* ================================================================= *)
(** ** The other type guards of [src/utils/is] *)

(** The [typeof] operator on the values of the model, which has no
    function value. *)
Definition typeof (x : JsValue) : string :=
  match x with
  | JsUndefined => "undefined"
  | JsNull => "object"
  | JsBool _ => "boolean"
  | JsNumber _ => "number"
  | JsString _ => "string"
  | JsArray _ | JsObject _ => "object"
  end.

(** [Object.prototype.toString.call(x)] *)
Definition objectTag (x : JsValue) : string :=
  match x with
  | JsUndefined => "[object Undefined]"
  | JsNull => "[object Null]"
  | JsBool _ => "[object Boolean]"
  | JsNumber _ => "[object Number]"
  | JsString _ => "[object String]"
  | JsArray _ => "[object Array]"
  | JsObject _ => "[object Object]"
  end.

(** [v === null] *)
Definition strictEqNull (v : JsValue) : bool :=
  match v with
  | JsNull => true
  | _ => false
  end.

Definition isObject (x : JsValue) : bool :=
  String.eqb (objectTag x) "[object Object]".

Definition isString (x : JsValue) : bool := String.eqb (typeof x) "string".

Definition isNumber (x : JsValue) : bool := String.eqb (typeof x) "number".

Definition isUndefined (x : JsValue) : bool :=
  String.eqb (typeof x) "undefined".

(** [typeof x === null]: the string [typeof] answers is compared with
    [null]. *)
Definition isNull (x : JsValue) : bool :=
  strictEqNull (JsString (typeof x)).

(* ================================================================= *)
(** ** File utilities ([src/utils/file]) *)

(** [s.startsWith(t)], [s.endsWith(t)] and "[s] contains [t]". *)
Fixpoint startsWith (s t : string) {struct t} : bool :=
  match t with
  | EmptyString => true
  | String a t' =>
      match s with
      | EmptyString => false
      | String b s' => Ascii.eqb a b && startsWith s' t'
      end
  end.

Fixpoint endsWith (s t : string) : bool :=
  String.eqb s t
  || match s with
     | EmptyString => false
     | String _ s' => endsWith s' t
     end.

Fixpoint includesText (s t : string) : bool :=
  startsWith s t
  || match s with
     | EmptyString => false
     | String _ s' => includesText s' t
     end.

(** The class [[^/.]]: any character but a slash and a dot. *)
Definition plainChar (c : ascii) : bool :=
  negb (Ascii.eqb c "/") && negb (Ascii.eqb c ".").

Fixpoint allPlain (s : string) : bool :=
  match s with
  | EmptyString => true
  | String c rest => plainChar c && allPlain rest
  end.

(** [path.replace(/\.[^/.]+$/, '')]: the pattern matches at the first
    position holding a dot followed, up to the end of the text, by one or
    more plain characters; the match is removed. *)
Fixpoint stripExtension (path : string) : string :=
  match path with
  | EmptyString => EmptyString
  | String c rest =>
      if Ascii.eqb c "." && nonEmpty rest && allPlain rest
      then EmptyString
      else String c (stripExtension rest)
  end.

(** [extension[0] !== '.' ? `.${extension}` : extension] *)
Definition dottedExtension (extension : string) : string :=
  match extension with
  | String c _ => if Ascii.eqb c "." then extension else "." ++ extension
  | EmptyString => "." ++ extension
  end.

(** The functions of the [upath] package the utilities call. *)
Module Upath.
Record Lib : Type := mkLib {
  extname : string -> string;
  join : string -> string -> string;
  dirname : string -> string;
  basename : string -> string -> string;
  normalizeSafe : string -> string
}.
End Upath.

(** [!extname(path)] ([src/utils/is]) *)
Definition isDirectory (lib : Upath.Lib) (path : string) : bool :=
  negb (nonEmpty (Upath.extname lib path)).

(** The record [getFileInfo] returns. *)
Module FileInfo.
Record t : Type := mk {
  path : string;
  pathWithoutExtension : string;
  extension : string;
  isDirectory : bool;
  dirname : string;
  filename : string
}.
End FileInfo.

(** [getFileInfo(target = '', { backupFilename = 'filename',
    extension = '.ts' } = {})] *)
Definition getFileInfo (lib : Upath.Lib) (target : option string)
    (backupFilename extension : option string) : FileInfo.t :=
  let target := match target with Some t => t | None => EmptyString end in
  let backupFilename :=
    match backupFilename with Some b => b | None => "filename" end in
  let extension := match extension with Some e => e | None => ".ts" end in
  let isDir := isDirectory lib target in
  let path := if isDir
              then Upath.join lib target (backupFilename ++ extension)
              else target in
  let pathWithoutExtension := stripExtension path in
  let dir := Upath.dirname lib path in
  let filename := Upath.basename lib path (dottedExtension extension) in
  {| FileInfo.path := path;
     FileInfo.pathWithoutExtension := pathWithoutExtension;
     FileInfo.extension := extension;
     FileInfo.isDirectory := isDir;
     FileInfo.dirname := dir;
     FileInfo.filename := filename |}.

(** The options of [loadFile]; [logLevel] only selects whether the
    not-found message is printed and is left out. *)
Record LoadOptions : Type := mkLoadOptions {
  root : option string;
  defaultFileName : option string;
  isDefault : option bool;
  alias : option (list (string * string))
}.

(** What [loadFile] asks of Node: the working directory, [path.resolve]
    with one and with two arguments, and [fs.existsSync]. *)
Record Host : Type := mkHost {
  cwd : string;
  resolve1 : string -> string;
  resolve2 : string -> string -> string;
  existsSync : string -> bool
}.

(** The module system and the bundler: [require(resolvedPath)] (with the
    [require.resolve] before it), the code [bundleFile] obtains from the
    bundler, and the [require] of a file whose bundled code is compiled in
    its place. *)
Record ModuleLoader : Type := mkModuleLoader {
  requireModule : string -> Outcome JsValue;
  bundleFile :
    string -> bool -> string -> option (list (string * string)) -> Promise string;
  requireBundled : string -> string -> Outcome JsValue
}.

(** [e.message] *)
Definition message (e : JsError) : string :=
  match e with
  | TypeError msg => msg
  | Failure msg => msg
  end.

(** The alternatives of the [ignored] pattern, and its [test]. *)
Definition ignoredMessages : list string :=
  ["Cannot use import statement";
   "Must use import to load ES Module";
   "Unexpected token";
   "Unexpected identifier"].

Definition ignored (msg : string) : bool :=
  existsb (includesText msg) ignoredMessages.

(** Truthiness of an optional text. *)
Definition truthyText (s : option string) : bool :=
  match s with
  | Some t => nonEmpty t
  | None => false
  end.

(** Lines 66-110 of [loadFile]: the path to load and its two flags, or the
    message logged before [process.exit(1)]. *)
Inductive Located : Type :=
| Found (resolvedPath : string) (isTS isMjs : bool)
| NotFound (notice : string).

Definition optionRoot (host : Host) (options : option LoadOptions) : string :=
  match options with
  | Some o => match root o with Some r => r | None => cwd host end
  | None => cwd host
  end.

Definition optionDefaultFileName (options : option LoadOptions)
  : option string :=
  match options with
  | Some o => defaultFileName o
  | None => None
  end.

Definition locate (host : Host) (filePath : option string)
    (options : option LoadOptions) : Located :=
  let root := optionRoot host options in
  let defaultFileName := optionDefaultFileName options in
  let '(resolvedPath, isTS, isMjs) :=
    if truthyText filePath then
      let filePath := match filePath with Some p => p | None => EmptyString end in
      (Some (resolve1 host filePath), endsWith filePath ".ts", false)
    else if truthyText defaultFileName then
      let name := match defaultFileName with
                  | Some n => n
                  | None => EmptyString
                  end in
      let jsFile := resolve2 host root (name ++ ".js") in
      let resolvedPath := if existsSync host jsFile then Some jsFile else None in
      let '(resolvedPath, isMjs) :=
        if negb (truthyText resolvedPath) then
          let mjsFile := resolve2 host root (name ++ ".mjs") in
          if existsSync host mjsFile
          then (Some mjsFile, true)
          else (resolvedPath, false)
        else (resolvedPath, false) in
      let '(resolvedPath, isTS) :=
        if negb (truthyText resolvedPath) then
          let tsFile := resolve2 host root (name ++ ".ts") in
          if existsSync host tsFile
          then (Some tsFile, true)
          else (resolvedPath, false)
        else (resolvedPath, false) in
      (resolvedPath, isTS, isMjs)
    else (None, false, false) in
  if negb (truthyText resolvedPath) then
    if truthyText filePath then
      NotFound ("File not found => "
                ++ match filePath with Some p => p | None => EmptyString end)
    else if truthyText defaultFileName then
      NotFound ("File not found => "
                ++ match defaultFileName with
                   | Some n => n
                   | None => EmptyString
                   end
                ++ ".{js,mjs,ts}")
    else NotFound "File not found"
  else
    Found (match resolvedPath with Some p => p | None => EmptyString end)
          isTS isMjs.

(** The module-level [cache]: a map from resolved path to [{ file }] or
    [{ error }]. *)
Inductive CacheEntry : Type :=
| FileEntry (loaded : JsValue)
| ErrorEntry (failure : JsError).

Definition Cache : Type := list (string * CacheEntry).

Definition cacheGet (k : string) (c : Cache) : option CacheEntry := lookup k c.

Definition cacheSet (k : string) (v : CacheEntry) (c : Cache) : Cache :=
  (k, v) :: filter (fun kv => negb (String.eqb (fst kv) k)) c.

(** What [loadFile] resolves to; a field the object does not have reads as
    [undefined] ([file]) or is absent ([error], [cached]). *)
Record LoadResult : Type := mkLoadResult {
  path : string;
  file : JsValue;
  error : option JsError;
  cached : option bool
}.

(** How a call ends: the process exits after logging a message, or the
    promise is fulfilled and the cache is left in a new state. *)
Inductive LoadOutcome : Type :=
| Exited (notice : string)
| Completed (result : LoadResult) (cache : Cache).

(** [try { ... await p ... } catch (e) { handler }] in an [async]
    function. *)
Fixpoint tryCatch {A B : Type} (p : Promise A) (body : A -> Promise B)
    (handler : JsError -> Promise B) : Promise B :=
  match p with
  | Fulfilled a => body a
  | Rejected e => handler e
  | Pending p' => Pending (tryCatch p' body handler)
  end.

(** [loadFromBundledFile]: the bundled module, or its [default] export
    when asked for and the module is an ES module. *)
Definition loadFromBundledFile (loader : ModuleLoader)
    (fileName bundledCode : string) (isDefault : bool) : Promise JsValue :=
  raw <~ requireBundled loader fileName bundledCode ;;
  if isDefault then
    esModule <~ readProp raw "__esModule" ;;
    Fulfilled (if truthy esModule then prop raw "default" else raw)
  else Fulfilled raw.

(** Lines 126-166 of [loadFile]: the body of the [try]. *)
Definition loadModule (lib : Upath.Lib) (host : Host) (loader : ModuleLoader)
    (options : option LoadOptions) (resolvedPath : string)
    (isTS isMjs : bool) : Promise JsValue :=
  let rootDir := optionRoot host options in
  let byDefault := match options with
                   | Some o => match isDefault o with
                               | Some b => b
                               | None => true
                               end
                   | None => true
                   end in
  let aliases := match options with
                 | Some o => alias o
                 | None => None
                 end in
  loaded <~ (if negb isTS && negb isMjs then
               match requireModule loader resolvedPath with
               | Returned exported => Returned exported
               | Thrown e =>
                   if ignored (message e) then Returned JsUndefined
                   else Thrown e
               end
             else Returned JsUndefined) ;;
  if negb (truthy loaded) then
    code <- bundleFile loader resolvedPath isMjs
                       (if nonEmpty rootDir then rootDir
                        else Upath.dirname lib
                               (Upath.normalizeSafe lib resolvedPath))
                       aliases ;;
    loadFromBundledFile loader resolvedPath code byDefault
  else Fulfilled loaded.

Definition loadFile (lib : Upath.Lib) (host : Host) (loader : ModuleLoader)
    (cache : Cache) (filePath : option string)
    (options : option LoadOptions) : Promise LoadOutcome :=
  match locate host filePath options with
  | NotFound notice => Fulfilled (Exited notice)
  | Found resolvedPath isTS isMjs =>
      let normalizeResolvedPath := Upath.normalizeSafe lib resolvedPath in
      match cacheGet resolvedPath cache with
      | Some cachedData =>
          Fulfilled
            (Completed
               {| path := normalizeResolvedPath;
                  file := match cachedData with
                          | FileEntry loaded => loaded
                          | ErrorEntry _ => JsUndefined
                          end;
                  error := match cachedData with
                           | FileEntry _ => None
                           | ErrorEntry e => Some e
                           end;
                  cached := Some true |}
               cache)
      | None =>
          tryCatch
            (loadModule lib host loader options resolvedPath isTS isMjs)
            (fun loaded =>
               Fulfilled
                 (Completed
                    {| path := normalizeResolvedPath; file := loaded;
                       error := None; cached := None |}
                    (cacheSet resolvedPath (FileEntry loaded) cache)))
            (fun e =>
               Fulfilled
                 (Completed
                    {| path := normalizeResolvedPath; file := JsUndefined;
                       error := Some e; cached := None |}
                    (cacheSet resolvedPath (ErrorEntry e) cache)))
      end
  end.

(* ================================================================= *)
(** ** A small instance to run the file utilities on *)

Module FileSample.

(** Stand-ins for [upath]: the extension is what the pattern of
    [getFileInfo] removes, paths are joined with a slash. *)
Definition lib : Upath.Lib :=
  {| Upath.extname :=
       fun p => substring (String.length (stripExtension p))
                          (String.length p) p;
     Upath.join := fun a b => a ++ "/" ++ b;
     Upath.dirname := fun _ => ".";
     Upath.basename := fun p ext => if endsWith p ext then stripExtension p else p;
     Upath.normalizeSafe := fun p => p |}.

(** A working directory that holds [orval.config.mjs] and
    [orval.config.ts]. *)
Definition host : Host :=
  {| cwd := "/work";
     resolve1 := fun p => "/work/" ++ p;
     resolve2 := fun dir p => dir ++ "/" ++ p;
     existsSync := fun p => existsb (String.eqb p)
                              ["/work/orval.config.mjs";
                               "/work/orval.config.ts"] |}.

(** [require] fails on [broken.js] and on the ES module [esm.js]; the
    bundler takes one turn and every bundled file is an ES module whose
    default export records the code. *)
Definition loader : ModuleLoader :=
  {| requireModule :=
       fun p =>
         if String.eqb p "/work/broken.js"
         then Thrown (Failure "Cannot find module")
         else if String.eqb p "/work/esm.js"
         then Thrown (Failure "SyntaxError: Cannot use import statement outside a module")
         else Returned (JsObject [("input", JsString p)]);
     bundleFile := fun p _ _ _ => Pending (Fulfilled ("bundled:" ++ p));
     requireBundled :=
       fun _ code =>
         Returned (JsObject [("__esModule", JsBool true);
                             ("default", JsObject [("code", JsString code)])]) |}.

(** A loader that fails everywhere. *)
Definition failing : ModuleLoader :=
  {| requireModule := fun _ => Thrown (Failure "unavailable");
     bundleFile := fun _ _ _ _ => Rejected (Failure "unavailable");
     requireBundled := fun _ _ => Thrown (Failure "unavailable") |}.

Definition byName (name : string) : option LoadOptions :=
  Some {| root := None; defaultFileName := Some name;
          isDefault := None; alias := None |}.

End FileSample.

(* ================================================================= *)
(** ** The accumulator as an object in the store *)

(** [getObject] builds the result of the [properties] branch by mutating
    one accumulator object in place and returns that very object.  Here
    the objects live in a store, an object is known by its address, and
    every object literal and every result handed back is a new object. *)
Definition Store : Type := list ResolverValue.

Definition Address : Type := nat.

Definition allocate (object : ResolverValue) (store : Store)
  : Address * Store :=
  (List.length store, (store ++ [object])%list).

Definition deref (store : Store) (address : Address) : ResolverValue :=
  nth address store emptyObject.

(** An assignment to a field of the object at [address]. *)
Fixpoint assign (address : Address) (change : ResolverValue -> ResolverValue)
    (store : Store) : Store :=
  match store, address with
  | [], _ => []
  | object :: rest, O => change object :: rest
  | object :: rest, S address' => object :: assign address' change rest
  end.

(** The reducer of lines 77-121, with [acc] the address of the
    accumulator: each [acc.field = ...] is an assignment in the store and
    the reducer returns [acc] itself. *)
Definition propertyStepInPlace (env : Collaborators) (item : JsValue)
    (name : option string) (context : ContextSpecs) (acc : Address)
    (entry : string * JsValue) (index : nat)
    (arr : list (string * JsValue)) (store : Store)
  : Promise (Address * Store) :=
  let '(key, memberSchema) := entry in
  let isRequired := isRequiredKey item key in
  let propName := memberPropName env name context key in
  resolvedValue <- resolveObject env memberSchema propName context ;;
  isReadOnly <~ readOnlyFlag item memberSchema ;;
  let store := if Nat.eqb index 0
               then assign acc (fun o => appendValue o "{") store
               else store in
  let doc := jsDoc env memberSchema true in
  let store :=
    assign acc (fun o => appendImports o (imports resolvedValue)) store in
  let store :=
    assign acc
           (fun o => appendValue o
                       (memberLine doc (truthy isReadOnly) (getKey env key)
                                   isRequired (value resolvedValue)))
           store in
  let store :=
    assign acc (fun o => appendSchemas o (schemas resolvedValue)) store in
  let store := if Nat.eqb (List.length arr) (S index)
               then assign acc (fun o => appendValue o (nl ++ "}")) store
               else store in
  Fulfilled (acc, store).

(** Modelled from the spec: [asyncReduce] as above, the steps applied
    strictly in list order, with the store handed from each step to the
    next. *)
Fixpoint asyncReduceInPlace_from {Item : Type} (arr : list Item)
    (reducer : Address -> Item -> nat -> list Item -> Store
               -> Promise (Address * Store))
    (index : nat) (rest : list Item) (acc : Address) (store : Store)
  : Promise (Address * Store) :=
  match rest with
  | [] => Fulfilled (acc, store)
  | current :: rest' =>
      next <- reducer acc current index arr store ;;
      asyncReduceInPlace_from arr reducer (S index) rest' (fst next) (snd next)
  end.

(** [getObject] over the store: what it returns is the address of the
    result. *)
Definition getObjectInPlace (env : Collaborators) (item : JsValue)
    (name : option string) (context : ContextSpecs) (store : Store)
  : Promise (Address * Store) :=
  reference <~ isReference item ;;
  if reference then
    info <- getRefInfo env (prop item "$ref") context ;;
    Fulfilled (allocate {| value := refName info; imports := [importOf info];
                           schemas := []; isEnum := false; type := "object";
                           isRef := true; schema := None |} store)
  else if truthy (prop item "allOf") then
    items <~ compositionItems item allOf ;;
    combined <- combineSchemas env items name allOf context ;;
    Fulfilled (allocate combined store)
  else if truthy (prop item "oneOf") then
    items <~ compositionItems item oneOf ;;
    combined <- combineSchemas env items name oneOf context ;;
    Fulfilled (allocate combined store)
  else if truthy (prop item "anyOf") then
    items <~ compositionItems item anyOf ;;
    combined <- combineSchemas env items name anyOf context ;;
    Fulfilled (allocate combined store)
  else if truthy (prop item "properties")
          && negb (Nat.eqb (List.length (Object_entries (prop item "properties"))) 0)
  then
    let '(acc, store) := allocate emptyObject store in
    asyncReduceInPlace_from (Object_entries (prop item "properties"))
                            (propertyStepInPlace env item name context)
                            0 (Object_entries (prop item "properties"))
                            acc store
  else if truthy (prop item "additionalProperties") then
    if isBoolean (prop item "additionalProperties") then
      Fulfilled (allocate {| value := "{ [key: string]: any }"; imports := [];
                             schemas := []; isEnum := false; type := "object";
                             isRef := false; schema := None |} store)
    else
      resolvedValue <- resolveValue env (prop item "additionalProperties")
                                    name context ;;
      Fulfilled (allocate
                   {| value := "{[key: string]: " ++ value resolvedValue ++ "}";
                      imports := imports resolvedValue;
                      schemas := schemas resolvedValue;
                      isEnum := false; type := "object";
                      isRef := false; schema := None |} store)
  else
    Fulfilled (allocate
                 {| value := if strictEqString (prop item "type") "object"
                             then "{}" else "unknown";
                    imports := []; schemas := []; isEnum := false;
                    type := "object"; isRef := false; schema := None |} store).

(* ================================================================= *)
(** ** Notions used to state the properties *)

(** Two sets of collaborators that compute the same strings and whose
    resolutions settle to the same outcomes, whatever the number of
    suspensions each of them takes. *)
Definition sameOutcomes (e1 e2 : Collaborators) : Prop :=
  (forall s, pascal e1 s = pascal e2 s) /\
  (forall node flag, jsDoc e1 node flag = jsDoc e2 node flag) /\
  (forall key, getKey e1 key = getKey e2 key) /\
  (forall ref ctx, settle (getRefInfo e1 ref ctx) = settle (getRefInfo e2 ref ctx)) /\
  (forall items name sep ctx,
      settle (combineSchemas e1 items name sep ctx)
      = settle (combineSchemas e2 items name sep ctx)) /\
  (forall node hint ctx,
      settle (resolveObject e1 node hint ctx)
      = settle (resolveObject e2 node hint ctx)) /\
  (forall node hint ctx,
      settle (resolveValue e1 node hint ctx)
      = settle (resolveValue e2 node hint ctx)).

(** Concatenation of a list of texts, first to last. *)
Definition concatText (texts : list string) : string :=
  fold_right append EmptyString texts.

(** The declaration of one property, given what its schema resolved to. *)
Definition declaration (env : Collaborators) (item : JsValue)
    (entry : string * JsValue) (resolved : ResolverValue) : string :=
  memberLine (jsDoc env (snd entry) true)
             (truthy (prop item "readOnly") || truthy (prop (snd entry) "readOnly"))
             (getKey env (fst entry))
             (isRequiredKey item (fst entry))
             (value resolved).

Definition declarations (env : Collaborators) (item : JsValue)
    (entries : list (string * JsValue)) (results : list ResolverValue)
  : list string :=
  map (fun p => declaration env item (fst p) (snd p)) (combine entries results).

(** The schema of a property is an object (or at least not [null]) and its
    resolution, under the name hint the resolver computes for it, is
    fulfilled with the given result. *)
Definition resolvesTo (env : Collaborators) (name : option string)
    (context : ContextSpecs) (entry : string * JsValue)
    (resolved : ResolverValue) : Prop :=
  isNullish (snd entry) = false /\
  settle (resolveObject env (snd entry)
                        (memberPropName env name context (fst entry)) context)
  = Returned resolved.

(** The node is not a reference and carries none of the composition
    keywords. *)
Definition plainNode (item : JsValue) : Prop :=
  isReference item = Returned false /\
  truthy (prop item "allOf") = false /\
  truthy (prop item "oneOf") = false /\
  truthy (prop item "anyOf") = false.

(** No composition keyword of higher priority than [sep] is truthy. *)
Definition noHigherKeyword (item : JsValue) (sep : Separator) : Prop :=
  match sep with
  | allOf => True
  | oneOf => truthy (prop item "allOf") = false
  | anyOf => truthy (prop item "allOf") = false /\
             truthy (prop item "oneOf") = false
  end.

(** The node has no property to declare: [properties] is falsy or has no
    entry. *)
Definition noProperties (item : JsValue) : Prop :=
  truthy (prop item "properties") = false \/
  Object_entries (prop item "properties") = [].

(** The accumulator after the steps for [rest], begun at [index] on [acc]. *)
Definition folded (env : Collaborators) (item : JsValue) (index : nat)
    (acc : ResolverValue) (rest : list (string * JsValue))
    (results : list ResolverValue) : ResolverValue :=
  let nonEmptyRest := negb (Nat.eqb (length rest) 0) in
  mkResolverValue
    (value acc
       ++ (if Nat.eqb index 0 && nonEmptyRest then "{" else EmptyString)
       ++ concatText (declarations env item rest results)
       ++ (if nonEmptyRest then nl ++ "}" else EmptyString))
    (imports acc ++ concat (map imports results))
    (schemas acc ++ concat (map schemas results))
    (isEnum acc) (type acc) (isRef acc) (schema acc).

(* ================================================================= *)
(** ** Promises and strings: basic facts *)

Lemma settle_await {A B : Type} (p : Promise A) (k : A -> Promise B) :
  settle (await p k)
  = match settle p with
    | Returned a => settle (k a)
    | Thrown e => Thrown e
    end.
Proof.
  induction p as [a | e | p IH]; simpl; auto.
Qed.

Lemma settle_delay {A : Type} (n : nat) (p : Promise A) :
  settle (delay n p) = settle p.
Proof.
  induction n as [| n IH]; simpl; auto.
Qed.

Lemma append_assoc (a b c : string) : (a ++ b) ++ c = a ++ (b ++ c).
Proof.
  induction a as [| x a IH]; simpl; [reflexivity | now rewrite IH].
Qed.

Lemma append_empty_r (a : string) : a ++ EmptyString = a.
Proof.
  induction a as [| x a IH]; simpl; [reflexivity | now rewrite IH].
Qed.

Lemma lookup_omit_other (fields : list (string * JsValue)) (k k' : string) :
  k' <> k -> lookup k' (omit_fields fields k) = lookup k' fields.
Proof.
  intros Hne. induction fields as [| [k0 v] fields IH]; simpl; [reflexivity |].
  destruct (String.eqb_spec k0 k) as [-> | Hk0]; simpl.
  - destruct (String.eqb_spec k' k) as [E | _]; [contradiction | exact IH].
  - destruct (String.eqb k' k0); [reflexivity | exact IH].
Qed.

Lemma lookup_omit_same (fields : list (string * JsValue)) (k : string) :
  lookup k (omit_fields fields k) = None.
Proof.
  induction fields as [| [k0 v] fields IH]; simpl; [reflexivity |].
  destruct (String.eqb_spec k0 k) as [-> | Hk0]; simpl; [exact IH |].
  destruct (String.eqb_spec k k0) as [E | _]; [congruence | exact IH].
Qed.

(* ================================================================= *)
(** ** One step of the fold, and the whole fold *)

Lemma truthy_readOnlyFlag (item memberSchema : JsValue) :
  isNullish memberSchema = false ->
  exists flag,
    readOnlyFlag item memberSchema = Returned flag /\
    truthy flag
    = truthy (prop item "readOnly") || truthy (prop memberSchema "readOnly").
Proof.
  intros Hobj. unfold readOnlyFlag, readProp. rewrite Hobj.
  destruct (truthy (prop item "readOnly")) eqn:Howner.
  - exists (prop item "readOnly"). now rewrite Howner.
  - exists (prop memberSchema "readOnly"). auto.
Qed.

Lemma propertyStep_settles (env : Collaborators) (item : JsValue)
    (name : option string) (context : ContextSpecs) (acc : ResolverValue)
    (entry : string * JsValue) (index : nat) (arr : list (string * JsValue))
    (resolved : ResolverValue) :
  resolvesTo env name context entry resolved ->
  settle (propertyStep env item name context acc entry index arr)
  = Returned
      (mkResolverValue
         (value acc
            ++ (if Nat.eqb index 0 then "{" else EmptyString)
            ++ declaration env item entry resolved
            ++ (if Nat.eqb (length arr) (S index) then nl ++ "}" else EmptyString))
         (imports acc ++ imports resolved)
         (schemas acc ++ schemas resolved)
         (isEnum acc) (type acc) (isRef acc) (schema acc)).
Proof.
  destruct entry as [key memberSchema]. intros [Hobj Hres]. simpl in Hobj, Hres.
  unfold propertyStep. rewrite settle_await, Hres.
  destruct (truthy_readOnlyFlag item memberSchema Hobj) as [flag [Hflag Htruthy]].
  rewrite Hflag. simpl attempt. unfold declaration. simpl fst. simpl snd.
  rewrite <- Htruthy.
  destruct (Nat.eqb index 0), (Nat.eqb (length arr) (S index));
    unfold appendValue, appendImports, appendSchemas;
    cbn [settle value imports schemas isEnum type isRef schema];
    rewrite ?append_assoc, ?append_empty_r; reflexivity.
Qed.

Lemma asyncReduce_from_settles (env : Collaborators) (item : JsValue)
    (name : option string) (context : ContextSpecs)
    (arr : list (string * JsValue)) :
  forall (rest : list (string * JsValue)) (results : list ResolverValue)
         (index : nat) (acc : ResolverValue),
    Forall2 (resolvesTo env name context) rest results ->
    length arr = index + length rest ->
    settle (asyncReduce_from arr (propertyStep env item name context)
                             index rest acc)
    = Returned (folded env item index acc rest results).
Proof.
  intros rest results index acc Hall. revert index acc.
  induction Hall as [| entry resolved rest' results' Hentry Hall IH];
    intros index acc Hlen.
  - unfold folded, declarations. cbn [asyncReduce_from settle length Nat.eqb negb
      combine map concatText fold_right concat].
    rewrite Bool.andb_false_r, !append_empty_r, !app_nil_r. now destruct acc.
  - cbn [asyncReduce_from]. rewrite settle_await.
    rewrite (propertyStep_settles env item name context acc entry index arr
               resolved Hentry).
    cbn [length] in Hlen.
    rewrite IH by lia.
    unfold folded, declarations, concatText.
    cbn [value imports schemas isEnum type isRef schema length Nat.eqb negb
         andb combine map fold_right concat fst snd].
    rewrite Bool.andb_true_r.
    rewrite <- !app_assoc, !append_assoc.
    f_equal. f_equal. f_equal. f_equal. f_equal.
    destruct rest' as [| next rest'].
    + inversion Hall; subst.
      replace (Nat.eqb (length arr) (S index)) with true
        by (symmetry; apply Nat.eqb_eq; cbn [length] in Hlen; lia).
      cbn [length Nat.eqb negb combine map fold_right].
      now rewrite !append_empty_r.
    + replace (Nat.eqb (length arr) (S index)) with false
        by (symmetry; apply Nat.eqb_neq; cbn [length] in Hlen; lia).
      cbn [length Nat.eqb negb append]. reflexivity.
Qed.

(* ================================================================= *)
(** ** Outcomes do not depend on how long the collaborators take *)

Lemma sameOutcomes_refl (env : Collaborators) : sameOutcomes env env.
Proof.
  repeat split; reflexivity.
Qed.

Lemma memberPropName_same (e1 e2 : Collaborators) (name : option string)
    (context : ContextSpecs) (key : string) :
  sameOutcomes e1 e2 ->
  memberPropName e1 name context key = memberPropName e2 name context key.
Proof.
  intros [Hpascal _]. unfold memberPropName.
  destruct name as [parent |]; [| reflexivity].
  now rewrite (Hpascal parent), (Hpascal key).
Qed.

Lemma settle_attempt {A B : Type} (o : Outcome A) (k1 k2 : A -> Promise B) :
  (forall a, settle (k1 a) = settle (k2 a)) ->
  settle (attempt o k1) = settle (attempt o k2).
Proof.
  intros Hk. destruct o as [a | e]; simpl; auto.
Qed.

Lemma propertyStep_same (e1 e2 : Collaborators) (item : JsValue)
    (name : option string) (context : ContextSpecs) (acc : ResolverValue)
    (entry : string * JsValue) (index : nat) (arr : list (string * JsValue)) :
  sameOutcomes e1 e2 ->
  settle (propertyStep e1 item name context acc entry index arr)
  = settle (propertyStep e2 item name context acc entry index arr).
Proof.
  intros Hsame.
  pose proof (memberPropName_same e1 e2 name context (fst entry) Hsame) as Hname.
  destruct Hsame as (_ & Hdoc & Hkey & _ & _ & Hobject & _).
  destruct entry as [key memberSchema]. unfold propertyStep.
  rewrite !settle_await. simpl fst in Hname. rewrite Hname, Hobject.
  destruct (settle (resolveObject e2 memberSchema
                      (memberPropName e2 name context key) context))
    as [resolved | e]; [| reflexivity].
  apply settle_attempt. intros flag. now rewrite Hdoc, Hkey.
Qed.

Lemma asyncReduce_from_same (e1 e2 : Collaborators) (item : JsValue)
    (name : option string) (context : ContextSpecs)
    (arr rest : list (string * JsValue)) :
  sameOutcomes e1 e2 ->
  forall (index : nat) (acc : ResolverValue),
    settle (asyncReduce_from arr (propertyStep e1 item name context)
                             index rest acc)
    = settle (asyncReduce_from arr (propertyStep e2 item name context)
                               index rest acc).
Proof.
  intros Hsame. induction rest as [| entry rest IH]; intros index acc.
  - reflexivity.
  - cbn [asyncReduce_from]. rewrite !settle_await.
    rewrite (propertyStep_same e1 e2 item name context acc entry index arr Hsame).
    destruct (settle (propertyStep e2 item name context acc entry index arr));
      [apply IH | reflexivity].
Qed.

Lemma getObject_same (e1 e2 : Collaborators) (item : JsValue)
    (name : option string) (context : ContextSpecs) :
  sameOutcomes e1 e2 ->
  settle (getObject e1 item name context)
  = settle (getObject e2 item name context).
Proof.
  intros Hsame.
  pose proof (asyncReduce_from_same e1 e2 item name context
                (Object_entries (prop item "properties"))
                (Object_entries (prop item "properties")) Hsame 0 emptyObject)
    as Hfold.
  destruct Hsame as (_ & _ & _ & Href & Hcombine & _ & Hvalue).
  unfold getObject, asyncReduce.
  apply settle_attempt. intros reference.
  destruct reference.
  { rewrite !settle_await, Href.
    now destruct (settle (getRefInfo e2 (prop item "$ref") context)). }
  destruct (truthy (prop item "allOf")).
  { apply settle_attempt. intros items. apply Hcombine. }
  destruct (truthy (prop item "oneOf")).
  { apply settle_attempt. intros items. apply Hcombine. }
  destruct (truthy (prop item "anyOf")).
  { apply settle_attempt. intros items. apply Hcombine. }
  destruct (truthy (prop item "properties")
            && negb (Nat.eqb (length (Object_entries (prop item "properties"))) 0)).
  { exact Hfold. }
  destruct (truthy (prop item "additionalProperties")); [| reflexivity].
  destruct (isBoolean (prop item "additionalProperties")); [reflexivity |].
  rewrite !settle_await, Hvalue.
  now destruct (settle (resolveValue e2 (prop item "additionalProperties")
                          name context)).
Qed.

(** Under the guards of the [properties] branch the resolver is the fold. *)
Lemma getObject_properties_branch (env : Collaborators) (item : JsValue)
    (name : option string) (context : ContextSpecs) :
  plainNode item ->
  truthy (prop item "properties") = true ->
  Object_entries (prop item "properties") <> [] ->
  getObject env item name context
  = asyncReduce (Object_entries (prop item "properties"))
                (propertyStep env item name context) emptyObject.
Proof.
  intros (Href & Hall & Hone & Hany) Hprops Hentries.
  unfold getObject. rewrite Href. cbn [attempt].
  rewrite Hall, Hone, Hany, Hprops.
  destruct (Object_entries (prop item "properties")); [contradiction | reflexivity].
Qed.

(** Under the guards of the last two branches the resolver skips the fold. *)
Lemma getObject_without_properties (env : Collaborators) (item : JsValue)
    (name : option string) (context : ContextSpecs) :
  plainNode item ->
  noProperties item ->
  getObject env item name context
  = if truthy (prop item "additionalProperties") then
      if isBoolean (prop item "additionalProperties") then
        Fulfilled {| value := "{ [key: string]: any }"; imports := [];
                     schemas := []; isEnum := false; type := "object";
                     isRef := false; schema := None |}
      else
        resolvedValue <- resolveValue env (prop item "additionalProperties")
                                      name context ;;
        Fulfilled {| value := "{[key: string]: " ++ value resolvedValue ++ "}";
                     imports := imports resolvedValue;
                     schemas := schemas resolvedValue;
                     isEnum := false; type := "object";
                     isRef := false; schema := None |}
    else
      Fulfilled {| value := if strictEqString (prop item "type") "object"
                            then "{}" else "unknown";
                   imports := []; schemas := []; isEnum := false;
                   type := "object"; isRef := false; schema := None |}.
Proof.
  intros (Href & Hall & Hone & Hany) Hnone.
  unfold getObject. rewrite Href. cbn [attempt].
  rewrite Hall, Hone, Hany.
  destruct Hnone as [Hfalsy | Hempty].
  - now rewrite Hfalsy.
  - rewrite Hempty. cbn [length Nat.eqb negb]. now rewrite Bool.andb_false_r.
Qed.

(* ================================================================= *)
(** ** Properties of [getObject] *)

Lemma sample_eager_same : sameOutcomes Sample.env Sample.eager.
Proof.
  repeat split; intros; try reflexivity; simpl.
  - now destruct (settle (Sample.lastSegmentInfo ref ctx)).
  - now destruct (settle (Sample.resolvePrimitive node hint ctx)).
  - now destruct (settle (Sample.resolvePrimitive node hint ctx)).
Defined.

Lemma sample_pet_resolves :
  Forall2 (resolvesTo Sample.env (Some "pet") Sample.petstore)
          (Object_entries (prop Sample.pet "properties")) Sample.petResults.
Proof.
  repeat constructor.
Defined.

(* ----------------------------------------------------------------- *)
(** *** The order of the entries of an object *)

Lemma insertByIndex_permutation {V : Type} (entry : string * V)
    (sorted : list (string * V)) :
  Permutation (insertByIndex entry sorted) (entry :: sorted).
Proof.
  induction sorted as [| next rest IH]; cbn [insertByIndex]; [reflexivity |].
  destruct (N.leb (keyIndex entry) (keyIndex next)); [reflexivity |].
  rewrite IH. apply perm_swap.
Qed.

Lemma sortByIndex_permutation {V : Type} (entries : list (string * V)) :
  Permutation (sortByIndex entries) entries.
Proof.
  induction entries as [| entry rest IH]; [reflexivity |].
  cbn [sortByIndex fold_right]. rewrite insertByIndex_permutation.
  now apply perm_skip.
Qed.

Lemma insertByIndex_sorted {V : Type} (entry : string * V)
    (sorted : list (string * V)) :
  Sorted (fun a b => (keyIndex a <= keyIndex b)%N) sorted ->
  Sorted (fun a b => (keyIndex a <= keyIndex b)%N) (insertByIndex entry sorted).
Proof.
  induction sorted as [| next rest IH]; intros Hsorted; cbn [insertByIndex].
  - repeat constructor.
  - destruct (N.leb_spec (keyIndex entry) (keyIndex next)) as [Hle | Hgt].
    + constructor; [exact Hsorted | now constructor].
    + inversion Hsorted as [| ? ? Hrest Hhead]; subst.
      constructor; [now apply IH |].
      destruct rest as [| second rest]; cbn [insertByIndex].
      * constructor. lia.
      * destruct (N.leb (keyIndex entry) (keyIndex second)).
        -- constructor. lia.
        -- constructor. now inversion Hhead.
Qed.

Lemma sortByIndex_sorted {V : Type} (entries : list (string * V)) :
  Sorted (fun a b => (keyIndex a <= keyIndex b)%N) (sortByIndex entries).
Proof.
  induction entries as [| entry rest IH]; [constructor |].
  cbn [sortByIndex fold_right]. now apply insertByIndex_sorted.
Qed.

Lemma ownEntries_shape {V : Type} (fields : list (string * V)) :
  exists indexed,
    ownEntries fields
    = (indexed ++ filter (fun kv => negb (isArrayIndex (fst kv))) fields)%list
    /\ Permutation indexed (filter (fun kv => isArrayIndex (fst kv)) fields)
    /\ Sorted (fun a b => (keyIndex a <= keyIndex b)%N) indexed.
Proof.
  exists (sortByIndex (filter (fun kv => isArrayIndex (fst kv)) fields)).
  split; [reflexivity |].
  split; [apply sortByIndex_permutation | apply sortByIndex_sorted].
Qed.

Lemma ownEntries_plain_keys {V : Type} (fields : list (string * V)) :
  (forall kv, In kv fields -> arrayIndex (fst kv) = None) ->
  ownEntries fields = fields.
Proof.
  intros Hplain. unfold ownEntries.
  assert (forall kv, In kv fields -> isArrayIndex (fst kv) = false) as Hnot.
  { intros kv Hin. unfold isArrayIndex. now rewrite (Hplain kv Hin). }
  clear Hplain. induction fields as [| kv rest IH]; [reflexivity |].
  cbn [filter]. rewrite (Hnot kv (or_introl eq_refl)). cbn [negb].
  rewrite <- IH at 3 by (intros kv' Hin; apply Hnot; now right).
  assert (filter (fun kv0 => isArrayIndex (fst kv0)) rest = []) as ->.
  { clear IH. induction rest as [| kv' rest IH']; [reflexivity |].
    cbn [filter]. rewrite (Hnot kv' (or_intror (or_introl eq_refl))).
    apply IH'. intros kv0 [<- | Hin]; apply Hnot; [now left | right; now right]. }
  reflexivity.
Qed.

Example arrayIndex_examples :
  arrayIndex "0" = Some 0%N
  /\ arrayIndex "1" = Some 1%N
  /\ arrayIndex "200" = Some 200%N
  /\ arrayIndex "4294967294" = Some 4294967294%N
  /\ arrayIndex "4294967295" = None
  /\ arrayIndex "01" = None
  /\ arrayIndex "-1" = None
  /\ arrayIndex "1.5" = None
  /\ arrayIndex "id" = None
  /\ arrayIndex EmptyString = None.
Proof.
  repeat split; reflexivity.
Qed.

(* ----------------------------------------------------------------- *)
(** *** The text and the timing of the fold *)

Lemma latency_await {A B : Type} (p : Promise A) (k : A -> Promise B) (a : A) :
  settle p = Returned a ->
  latency (await p k) = latency p + latency (k a).
Proof.
  induction p as [x | e | p IH]; cbn [settle await latency]; intros Hp.
  - now injection Hp as ->.
  - discriminate.
  - now rewrite (IH Hp).
Qed.

Lemma propertyStep_latency (env : Collaborators) (item : JsValue)
    (name : option string) (context : ContextSpecs) (acc : ResolverValue)
    (entry : string * JsValue) (index : nat) (arr : list (string * JsValue))
    (resolved : ResolverValue) :
  resolvesTo env name context entry resolved ->
  latency (propertyStep env item name context acc entry index arr)
  = latency (resolveObject env (snd entry)
                           (memberPropName env name context (fst entry))
                           context).
Proof.
  destruct entry as [key memberSchema]. intros [Hobj Hres].
  cbn [fst snd] in *. unfold propertyStep.
  rewrite (latency_await _ _ resolved Hres).
  destruct (truthy_readOnlyFlag item memberSchema Hobj) as [flag [-> _]].
  cbn [attempt latency]. lia.
Qed.

Lemma asyncReduce_from_latency (env : Collaborators) (item : JsValue)
    (name : option string) (context : ContextSpecs)
    (arr : list (string * JsValue)) :
  forall (rest : list (string * JsValue)) (results : list ResolverValue)
         (index : nat) (acc : ResolverValue),
    Forall2 (resolvesTo env name context) rest results ->
    latency (asyncReduce_from arr (propertyStep env item name context)
                              index rest acc)
    = list_sum
        (map (fun entry =>
                latency (resolveObject env (snd entry)
                           (memberPropName env name context (fst entry))
                           context))
             rest).
Proof.
  intros rest results index acc Hall. revert index acc.
  induction Hall as [| entry resolved rest results Hentry Hall IH];
    intros index acc; [reflexivity |].
  cbn [asyncReduce_from map list_sum fold_right].
  rewrite (latency_await _ _ _
             (propertyStep_settles env item name context acc entry index arr
                resolved Hentry)).
  rewrite (propertyStep_latency env item name context acc entry index arr
             resolved Hentry).
  now rewrite IH.
Qed.


(** C1 fails as stated on properties declared in the order [b], [1], [a]:
    the node is a plain object schema with a non-empty properties map, its
    members are emitted in the order [1], [b], [a], and the body differs
    from the one that lists them as declared. *)
Lemma integer_key_is_emitted_first :
  plainNode Sample.numbered
  /\ prop Sample.numbered "properties"
     = JsObject [("b", Sample.numberNode); ("1", Sample.numberNode);
                 ("a", Sample.numberNode)]
  /\ settle (getObject Sample.env Sample.numbered None Sample.petstore)
     = Returned
         {| value := "{" ++ nl ++ "  1?: number;"
                         ++ nl ++ "  b?: number;"
                         ++ nl ++ "  a?: number;"
                         ++ nl ++ "}";
            imports := []; schemas := []; isEnum := false; type := "object";
            isRef := false; schema := Some (JsObject []) |}
  /\ settle (getObject Sample.env Sample.numbered None Sample.petstore)
     <> Returned
          {| value := "{" ++ nl ++ "  b?: number;"
                          ++ nl ++ "  1?: number;"
                          ++ nl ++ "  a?: number;"
                          ++ nl ++ "}";
             imports := []; schemas := []; isEnum := false; type := "object";
             isRef := false; schema := Some (JsObject []) |}.
Proof.
  repeat split; try reflexivity. discriminate.
Qed.

(** C1, amended. For an inline object schema whose properties map is not
    empty and whose members resolve, the body text is the opening brace,
    then one declaration per member in the order [Object.entries] yields
    the map (the keys that are array indices first, in ascending numeric
    order, then the other keys in declared order; hence the declared order
    when no key is an array index), then the closing brace, with imports
    and nested schemas accumulated in the same order.  This holds however
    long each member's resolution stays pending: the resolutions are
    awaited one after the other, so the suspensions of the whole are the
    sum of theirs. *)
Theorem getObject_declares_members_in_order (env : Collaborators)
    (item : JsValue) (name : option string) (context : ContextSpecs)
    (declared : list (string * JsValue)) (results : list ResolverValue) :
  plainNode item ->
  prop item "properties" = JsObject declared ->
  declared <> [] ->
  Forall2 (resolvesTo env name context) (ownEntries declared) results ->
  settle (getObject env item name context)
  = Returned
      {| value :=
           "{" ++ concatText
                    (map (fun member : (string * JsValue) * ResolverValue =>
                            nl ++ "  "
                               ++ (if nonEmpty (jsDoc env (snd (fst member)) true)
                                   then jsDoc env (snd (fst member)) true ++ "  "
                                   else EmptyString)
                               ++ (if truthy (prop item "readOnly")
                                      || truthy (prop (snd (fst member)) "readOnly")
                                   then "readonly " else EmptyString)
                               ++ getKey env (fst (fst member))
                               ++ (if isRequiredKey item (fst (fst member))
                                   then EmptyString else "?")
                               ++ ": " ++ value (snd member) ++ ";")
                         (combine (ownEntries declared) results))
               ++ nl ++ "}";
         imports := concat (map imports results);
         schemas := concat (map schemas results);
         isEnum := false; type := "object"; isRef := false;
         schema := Some (JsObject []) |}
  /\ latency (getObject env item name context)
     = list_sum
         (map (fun entry =>
                 latency (resolveObject env (snd entry)
                            (memberPropName env name context (fst entry))
                            context))
              (ownEntries declared))
  /\ (exists indexed,
         ownEntries declared
         = (indexed
              ++ filter (fun kv => negb (isArrayIndex (fst kv))) declared)%list
         /\ Permutation indexed
                        (filter (fun kv => isArrayIndex (fst kv)) declared)
         /\ Sorted (fun a b => (keyIndex a <= keyIndex b)%N) indexed)
  /\ ((forall kv, In kv declared -> arrayIndex (fst kv) = None) ->
      ownEntries declared = declared).
Proof.
  intros Hplain Hprops Hdeclared Hall.
  assert (truthy (prop item "properties") = true) as Htruthy
    by now rewrite Hprops.
  assert (Object_entries (prop item "properties") = ownEntries declared)
    as Hentries by now rewrite Hprops.
  assert (ownEntries declared <> []) as Hnonempty.
  { intros Hempty.
    pose proof (Permutation_length
                  (sortByIndex_permutation
                     (filter (fun kv => isArrayIndex (fst kv)) declared)))
      as Hlen.
    unfold ownEntries in Hempty. apply app_eq_nil in Hempty as [Hidx Hrest].
    rewrite Hidx in Hlen. cbn [List.length] in Hlen.
    destruct declared as [| kv rest]; [contradiction |].
    cbn [filter] in Hlen, Hrest.
    destruct (isArrayIndex (fst kv)); cbn [negb List.length] in *; discriminate. }
  rewrite (getObject_properties_branch env item name context Hplain Htruthy)
    by now rewrite Hentries.
  rewrite Hentries. unfold asyncReduce.
  split; [| split; [| split]].
  - rewrite (asyncReduce_from_settles env item name context _ _ results 0
               emptyObject Hall eq_refl).
    unfold folded, declarations.
    destruct (ownEntries declared) as [| entry entries]; [contradiction |].
    reflexivity.
  - apply (asyncReduce_from_latency env item name context _ _ results 0
             emptyObject Hall).
  - apply ownEntries_shape.
  - apply ownEntries_plain_keys.
Qed.

Lemma getObject_declares_members_in_order_witness :
  settle (getObject Sample.env Sample.pet (Some "pet") Sample.petstore)
  = Returned
      {| value := "{" ++ nl ++ "  id: number;"
                      ++ nl ++ "  status?: string;"
                      ++ nl ++ "  readonly tag?: string;"
                      ++ nl ++ "}";
         imports := [];
         schemas := [JsString "PetId"; JsString "PetStatusProperty";
                     JsString "PetTag"];
         isEnum := false; type := "object"; isRef := false;
         schema := Some (JsObject []) |}
  /\ latency (getObject Sample.env Sample.pet (Some "pet") Sample.petstore) = 6.
Proof.
  destruct (getObject_declares_members_in_order
              Sample.env Sample.pet (Some "pet") Sample.petstore
              [("id", Sample.numberNode); ("status", Sample.stringNode);
               ("tag", JsObject [("type", JsString "string");
                                 ("readOnly", JsBool true)])]
              Sample.petResults) as (Hvalue & Hlatency & _).
  - repeat split; reflexivity.
  - reflexivity.
  - discriminate.
  - exact sample_pet_resolves.
  - split; [exact Hvalue | exact Hlatency].
Defined.

(* ----------------------------------------------------------------- *)
(** *** The accumulator in the store *)

Lemma assign_last (store : Store) (object : ResolverValue)
    (change : ResolverValue -> ResolverValue) :
  assign (List.length store) change (store ++ [object])%list
  = (store ++ [change object])%list.
Proof.
  induction store as [| first rest IH]; cbn [List.length app assign];
    [reflexivity | now rewrite IH].
Qed.

Lemma deref_last (store : Store) (object : ResolverValue) :
  deref (store ++ [object])%list (List.length store) = object.
Proof.
  unfold deref. now rewrite nth_middle.
Qed.

Lemma deref_older (store more : Store) (address : Address) :
  address < List.length store ->
  deref (store ++ more)%list address = deref store address.
Proof.
  intros Hold. unfold deref. now apply app_nth1.
Qed.

Lemma propertyStepInPlace_refines (env : Collaborators) (item : JsValue)
    (name : option string) (context : ContextSpecs) (store : Store)
    (acc : ResolverValue) (entry : string * JsValue) (index : nat)
    (arr : list (string * JsValue)) :
  settle (propertyStepInPlace env item name context (List.length store)
                              entry index arr (store ++ [acc])%list)
  = match settle (propertyStep env item name context acc entry index arr) with
    | Returned stepped =>
        Returned (List.length store, (store ++ [stepped])%list)
    | Thrown e => Thrown e
    end.
Proof.
  destruct entry as [key memberSchema].
  unfold propertyStepInPlace, propertyStep. rewrite !settle_await.
  destruct (settle (resolveObject env memberSchema
                      (memberPropName env name context key) context))
    as [resolved | e]; [| reflexivity].
  destruct (readOnlyFlag item memberSchema) as [flag | e]; [| reflexivity].
  cbn [attempt settle].
  destruct (Nat.eqb index 0), (Nat.eqb (List.length arr) (S index));
    rewrite !assign_last; reflexivity.
Qed.

Lemma asyncReduceInPlace_from_refines (env : Collaborators) (item : JsValue)
    (name : option string) (context : ContextSpecs) (store : Store)
    (arr rest : list (string * JsValue)) :
  forall (index : nat) (acc : ResolverValue),
    settle (asyncReduceInPlace_from arr
              (propertyStepInPlace env item name context) index rest
              (List.length store) (store ++ [acc])%list)
    = match settle (asyncReduce_from arr (propertyStep env item name context)
                                     index rest acc) with
      | Returned final => Returned (List.length store, (store ++ [final])%list)
      | Thrown e => Thrown e
      end.
Proof.
  induction rest as [| entry rest IH]; intros index acc; [reflexivity |].
  cbn [asyncReduceInPlace_from asyncReduce_from]. rewrite !settle_await.
  rewrite propertyStepInPlace_refines.
  destruct (settle (propertyStep env item name context acc entry index arr))
    as [stepped | e]; [| reflexivity].
  cbn [fst snd]. apply IH.
Qed.

(** The store-passing resolver allocates one object, the result of the
    value-passing resolver, and touches no other. *)
Lemma getObjectInPlace_refines (env : Collaborators) (item : JsValue)
    (name : option string) (context : ContextSpecs) (store : Store) :
  settle (getObjectInPlace env item name context store)
  = match settle (getObject env item name context) with
    | Returned resolved =>
        Returned (List.length store, (store ++ [resolved])%list)
    | Thrown e => Thrown e
    end.
Proof.
  unfold getObjectInPlace, getObject, asyncReduce, allocate.
  destruct (isReference item) as [reference | e]; [| reflexivity].
  cbn [attempt]. destruct reference.
  { rewrite !settle_await.
    now destruct (settle (getRefInfo env (prop item "$ref") context)). }
  destruct (truthy (prop item "allOf")).
  { destruct (compositionItems item allOf) as [items | e]; [| reflexivity].
    cbn [attempt]. rewrite settle_await.
    now destruct (settle (combineSchemas env items name allOf context)). }
  destruct (truthy (prop item "oneOf")).
  { destruct (compositionItems item oneOf) as [items | e]; [| reflexivity].
    cbn [attempt]. rewrite settle_await.
    now destruct (settle (combineSchemas env items name oneOf context)). }
  destruct (truthy (prop item "anyOf")).
  { destruct (compositionItems item anyOf) as [items | e]; [| reflexivity].
    cbn [attempt]. rewrite settle_await.
    now destruct (settle (combineSchemas env items name anyOf context)). }
  destruct (truthy (prop item "properties")
            && negb (Nat.eqb (List.length (Object_entries (prop item "properties"))) 0)).
  { apply asyncReduceInPlace_from_refines. }
  destruct (truthy (prop item "additionalProperties")); [| reflexivity].
  destruct (isBoolean (prop item "additionalProperties")); [reflexivity |].
  rewrite !settle_await.
  now destruct (settle (resolveValue env (prop item "additionalProperties")
                          name context)).
Qed.

(** C9. Two resolutions of the same node in the same context, run one
    after the other on the same store, yield results with the same value
    text, the same imports in the same order and the same nested schemas
    in the same order, whenever the collaborators settle to the same
    results in both runs (after any numbers of suspensions).  The second
    run builds its result in a new object: the accumulator the first run
    mutated and returned, and every older object, is left as it was. *)
Theorem getObject_deterministic (e1 e2 : Collaborators) (item : JsValue)
    (name : option string) (context : ContextSpecs) (store store1 : Store)
    (first : Address) :
  sameOutcomes e1 e2 ->
  settle (getObjectInPlace e1 item name context store)
  = Returned (first, store1) ->
  settle (getObject e1 item name context) = Returned (deref store1 first)
  /\ exists (second : Address) (store2 : Store),
       settle (getObjectInPlace e2 item name context store1)
       = Returned (second, store2)
       /\ second <> first
       /\ value (deref store2 second) = value (deref store1 first)
       /\ imports (deref store2 second) = imports (deref store1 first)
       /\ schemas (deref store2 second) = schemas (deref store1 first)
       /\ forall older : Address,
            older < List.length store1 ->
            deref store2 older = deref store1 older.
Proof.
  intros Hsame Hfirst.
  rewrite getObjectInPlace_refines in Hfirst.
  destruct (settle (getObject e1 item name context)) as [resolved |] eqn:Hrun;
    [| discriminate].
  injection Hfirst as <- <-. rewrite deref_last.
  split; [reflexivity |].
  exists (List.length (store ++ [resolved])%list),
         ((store ++ [resolved]) ++ [resolved])%list.
  split.
  - rewrite getObjectInPlace_refines.
    rewrite <- (getObject_same e1 e2 item name context Hsame), Hrun.
    reflexivity.
  - rewrite deref_last. split.
    + rewrite length_app. cbn [List.length]. lia.
    + repeat split; auto. intros older Hold. now apply deref_older.
Qed.

Lemma getObject_deterministic_witness :
  settle (getObject Sample.env Sample.pet (Some "pet") Sample.petstore)
  = Returned (deref [Sample.petResolved] 0)
  /\ exists (second : Address) (store2 : Store),
       settle (getObjectInPlace Sample.eager Sample.pet (Some "pet")
                                Sample.petstore [Sample.petResolved])
       = Returned (second, store2)
       /\ second <> 0
       /\ value (deref store2 second) = value (deref [Sample.petResolved] 0)
       /\ imports (deref store2 second) = imports (deref [Sample.petResolved] 0)
       /\ schemas (deref store2 second) = schemas (deref [Sample.petResolved] 0)
       /\ forall older : Address,
            older < List.length [Sample.petResolved] ->
            deref store2 older = deref [Sample.petResolved] older.
Proof.
  apply (getObject_deterministic Sample.env Sample.eager Sample.pet
           (Some "pet") Sample.petstore [] [Sample.petResolved] 0).
  - exact sample_eager_same.
  - reflexivity.
Defined.

Lemma isReference_true (item : JsValue) :
  isReference item = Returned true <-> truthy (prop item "$ref") = true.
Proof.
  unfold isReference, readProp. split.
  - destruct (isNullish item); [discriminate | congruence].
  - intros Href. destruct item; try discriminate; cbn [isNullish]; congruence.
Qed.

(** C2. A node whose [$ref] is truthy resolves from the reference alone:
    once the reference resolver answers, the result is the referenced name
    with [isRef] set, the single import [{name, specKey}] and no nested
    schema; and any other node with the same [$ref], whatever its other
    fields and whatever the name passed, resolves identically. *)
Theorem getObject_reference_only (env : Collaborators) (item : JsValue)
    (name : option string) (context : ContextSpecs) (info : RefInfo) :
  isReference item = Returned true ->
  settle (getRefInfo env (prop item "$ref") context) = Returned info ->
  settle (getObject env item name context)
  = Returned {| value := refName info; imports := [importOf info];
                schemas := []; isEnum := false; type := "object";
                isRef := true; schema := None |}
  /\ forall (item' : JsValue) (name' : option string),
       prop item' "$ref" = prop item "$ref" ->
       getObject env item' name' context = getObject env item name context.
Proof.
  intros Href Hinfo. split.
  - unfold getObject. rewrite Href. cbn [attempt].
    rewrite settle_await, Hinfo. reflexivity.
  - intros item' name' Hsame.
    assert (isReference item' = Returned true) as Href'.
    { apply isReference_true. rewrite Hsame. now apply isReference_true. }
    unfold getObject. rewrite Href, Href'. cbn [attempt]. now rewrite Hsame.
Qed.

Lemma getObject_reference_only_witness :
  settle (getObject Sample.env Sample.strayRef (Some "owner") Sample.petstore)
  = Returned {| value := "Pet";
                imports := [JsObject [("name", JsString "Pet");
                                      ("specKey", JsString "petstore")]];
                schemas := []; isEnum := false; type := "object";
                isRef := true; schema := None |}
  /\ getObject Sample.env Sample.bareRef None Sample.petstore
     = getObject Sample.env Sample.strayRef (Some "owner") Sample.petstore.
Proof.
  destruct (getObject_reference_only
              Sample.env Sample.strayRef (Some "owner") Sample.petstore
              {| refName := "Pet"; specKey := Some "petstore" |})
    as [Hvalue Hsiblings].
  - reflexivity.
  - reflexivity.
  - split; [exact Hvalue | apply Hsiblings; reflexivity].
Defined.

Lemma prop_omit_same (fields : list (string * JsValue)) (k : string) :
  prop (omit (JsObject fields) k) k = JsUndefined.
Proof.
  cbn [omit prop]. now rewrite lookup_omit_same.
Qed.

Lemma prop_omit_other (fields : list (string * JsValue)) (k k' : string) :
  k' <> k -> prop (omit (JsObject fields) k) k' = prop (JsObject fields) k'.
Proof.
  intros Hne. cbn [omit prop]. now rewrite lookup_omit_other.
Qed.

Lemma prop_array_object (item : JsValue) (k : string) (members : list JsValue) :
  prop item k = JsArray members -> exists fields, item = JsObject fields.
Proof.
  destruct item; try discriminate. intros _. now eexists.
Qed.

Lemma compositionItems_array (item : JsValue) (sep : Separator)
    (members : list JsValue) :
  prop item (keyword sep) = JsArray members ->
  compositionItems item sep
  = Returned (JsArray (if truthy (prop item "properties")
                       then members ++ [omit item (keyword sep)]
                       else members)).
Proof.
  intros Hlist. unfold compositionItems. rewrite Hlist.
  now destruct (truthy (prop item "properties")).
Qed.

Lemma keyword_injective (sep other : Separator) :
  keyword other = keyword sep -> other = sep.
Proof.
  destruct sep, other; cbn; congruence.
Qed.

(** C3. A node that is not a reference and whose first truthy composition
    keyword, in the order [allOf], [oneOf], [anyOf], holds a list is handed
    to [combineSchemas] with that keyword as separator; the items are the
    list itself, or, when the node has [properties], the list followed by
    the node without that keyword (every other field kept). *)
Theorem getObject_delegates_composition (env : Collaborators)
    (item : JsValue) (name : option string) (context : ContextSpecs)
    (sep : Separator) (members : list JsValue) :
  isReference item = Returned false ->
  noHigherKeyword item sep ->
  prop item (keyword sep) = JsArray members ->
  getObject env item name context
  = combineSchemas env
      (JsArray (if truthy (prop item "properties")
                then members ++ [omit item (keyword sep)]
                else members))
      name sep context
  /\ prop (omit item (keyword sep)) (keyword sep) = JsUndefined
  /\ forall k : string,
       k <> keyword sep -> prop (omit item (keyword sep)) k = prop item k.
Proof.
  intros Href Hhigher Hlist.
  pose proof (compositionItems_array item sep members Hlist) as Hitems.
  destruct (prop_array_object item (keyword sep) members Hlist) as [fields ->].
  split; [| split].
  - unfold getObject. rewrite Href. cbn [attempt].
    destruct sep; cbn [keyword noHigherKeyword] in *.
    + rewrite Hlist. cbn [truthy]. rewrite Hitems. reflexivity.
    + rewrite Hhigher, Hlist. cbn [truthy]. rewrite Hitems. reflexivity.
    + destruct Hhigher as [Hall Hone]. rewrite Hall, Hone, Hlist. cbn [truthy].
      rewrite Hitems. reflexivity.
  - apply prop_omit_same.
  - intros k Hk. now apply prop_omit_other.
Qed.

Lemma getObject_delegates_composition_witness :
  getObject Sample.env Sample.composed (Some "shape") Sample.petstore
  = combineSchemas Sample.env
      (JsArray [Sample.bareRef;
                JsObject [("oneOf", JsArray [Sample.stringNode]);
                          ("anyOf", JsArray [Sample.numberNode]);
                          ("properties",
                           JsObject [("id", Sample.numberNode)])]])
      (Some "shape") allOf Sample.petstore.
Proof.
  exact (proj1 (getObject_delegates_composition
                  Sample.env Sample.composed (Some "shape") Sample.petstore
                  allOf [Sample.bareRef] eq_refl I eq_refl)).
Defined.

(** C10. On a node that is not a reference, a truthy [allOf] selects the
    [allOf] combination whatever [oneOf] and [anyOf] hold, and, without
    [allOf], a truthy [oneOf] selects the [oneOf] combination whatever
    [anyOf] holds; [anyOf] is selected only without the two others.  When
    the node has [properties], the item appended to the selected list is
    the node without the selected keyword and with every other field,
    the other composition keywords included. *)
Theorem composition_keyword_precedence (env : Collaborators)
    (item : JsValue) (name : option string) (context : ContextSpecs) :
  isReference item = Returned false ->
  (truthy (prop item "allOf") = true ->
   getObject env item name context
   = (items <~ compositionItems item allOf ;;
      combineSchemas env items name allOf context))
  /\ (truthy (prop item "allOf") = false ->
      truthy (prop item "oneOf") = true ->
      getObject env item name context
      = (items <~ compositionItems item oneOf ;;
         combineSchemas env items name oneOf context))
  /\ (truthy (prop item "allOf") = false ->
      truthy (prop item "oneOf") = false ->
      truthy (prop item "anyOf") = true ->
      getObject env item name context
      = (items <~ compositionItems item anyOf ;;
         combineSchemas env items name anyOf context))
  /\ (forall (sep : Separator) (members : list JsValue),
        truthy (prop item "properties") = true ->
        prop item (keyword sep) = JsArray members ->
        exists residual,
          compositionItems item sep
          = Returned (JsArray (members ++ [residual]))
          /\ prop residual (keyword sep) = JsUndefined
          /\ (forall other : Separator,
                other <> sep ->
                prop residual (keyword other) = prop item (keyword other))
          /\ (forall k : string,
                k <> keyword sep -> prop residual k = prop item k)).
Proof.
  intros Href. unfold getObject. rewrite Href. cbn [attempt].
  split; [| split; [| split]].
  - intros Hall. now rewrite Hall.
  - intros Hall Hone. now rewrite Hall, Hone.
  - intros Hall Hone Hany. now rewrite Hall, Hone, Hany.
  - intros sep members Hprops Hlist.
    exists (omit item (keyword sep)).
    rewrite (compositionItems_array item sep members Hlist), Hprops.
    destruct (prop_array_object item (keyword sep) members Hlist)
      as [fields ->].
    split; [reflexivity |]. split; [apply prop_omit_same |].
    split.
    + intros other Hother. apply prop_omit_other. intros Hkey. apply Hother.
      now apply keyword_injective.
    + intros k Hk. now apply prop_omit_other.
Qed.

Lemma composition_keyword_precedence_witness :
  settle (getObject Sample.env Sample.composed None Sample.petstore)
  = Returned
      {| value := "allOf"; imports := [];
         schemas := [Sample.bareRef;
                     JsObject [("oneOf", JsArray [Sample.stringNode]);
                               ("anyOf", JsArray [Sample.numberNode]);
                               ("properties",
                                JsObject [("id", Sample.numberNode)])]];
         isEnum := false; type := "object"; isRef := false; schema := None |}
  /\ exists residual,
       compositionItems Sample.composed allOf
       = Returned (JsArray ([Sample.bareRef] ++ [residual]))
       /\ prop residual "allOf" = JsUndefined
       /\ prop residual "oneOf" = JsArray [Sample.stringNode]
       /\ prop residual "anyOf" = JsArray [Sample.numberNode].
Proof.
  destruct (composition_keyword_precedence
              Sample.env Sample.composed None Sample.petstore eq_refl)
    as (Hall & _ & _ & Hresidual).
  split.
  - rewrite (Hall eq_refl). reflexivity.
  - destruct (Hresidual allOf [Sample.bareRef] eq_refl eq_refl)
      as (residual & Hitems & Hgone & Hkept & _).
    exists residual. split; [exact Hitems |]. split; [exact Hgone |].
    split.
    + refine (Hkept oneOf _). discriminate.
    + refine (Hkept anyOf _). discriminate.
Defined.

(* ----------------------------------------------------------------- *)
(** *** The name hint of a member *)

Lemma memberPropName_named (env : Collaborators) (parent : string)
    (context : ContextSpecs) (key : string) :
  nonEmpty parent = true ->
  memberPropName env (Some parent) context key
  = if isTopLevelSchema context (pascal env parent ++ pascal env key)
    then Some ((pascal env parent ++ pascal env key) ++ "Property")
    else Some (pascal env parent ++ pascal env key).
Proof.
  intros Hparent. unfold memberPropName. rewrite Hparent. reflexivity.
Qed.

Lemma memberPropName_unnamed (env : Collaborators) (context : ContextSpecs)
    (key : string) :
  memberPropName env None context key
  = if isTopLevelSchema context EmptyString
    then Some "undefinedProperty"
    else None.
Proof.
  reflexivity.
Qed.

(** C4. Without a parent name, in a target document that has a schema under
    the empty name, every member is resolved under the name hint
    [undefinedProperty]: the lookup falls back to the empty key and the
    suffix is appended to the absent candidate. *)
Theorem memberPropName_undefinedProperty :
  (forall (env : Collaborators) (key : string),
      memberPropName env None Sample.emptyNamed key = Some "undefinedProperty")
  /\ match settle (getObject Sample.env Sample.pet None Sample.emptyNamed) with
     | Returned resolved =>
         schemas resolved = [JsString "undefinedProperty";
                             JsString "undefinedProperty";
                             JsString "undefinedProperty"]
     | Thrown _ => False
     end.
Proof.
  split; [intros env key |]; reflexivity.
Qed.

(* ----------------------------------------------------------------- *)
(** *** Nodes without properties *)

(** C5 fails as stated on [{ type: 'object', additionalProperties: false }]:
    the node is plain, has no properties, carries [additionalProperties]
    and the flag is a boolean, yet the result is the empty record and not
    the open index record. *)
Lemma additionalProperties_false_is_closed :
  plainNode Sample.closedObject
  /\ noProperties Sample.closedObject
  /\ prop Sample.closedObject "additionalProperties" = JsBool false
  /\ isBoolean (prop Sample.closedObject "additionalProperties") = true
  /\ getObject Sample.env Sample.closedObject None Sample.petstore
     = Fulfilled {| value := "{}"; imports := []; schemas := [];
                    isEnum := false; type := "object"; isRef := false;
                    schema := None |}
  /\ settle (getObject Sample.env Sample.closedObject None Sample.petstore)
     <> Returned {| value := "{ [key: string]: any }"; imports := [];
                    schemas := []; isEnum := false; type := "object";
                    isRef := false; schema := None |}.
Proof.
  repeat split; try reflexivity.
  - now left.
  - discriminate.
Qed.

(** C5, amended. On a plain node without properties whose
    [additionalProperties] is truthy: the boolean flag (that is, [true])
    gives the open index record with no import and no nested schema; any
    other value is resolved as the value schema and gives the index record
    over the resolved value, with that resolution's imports and schemas. *)
Theorem getObject_additionalProperties (env : Collaborators)
    (item : JsValue) (name : option string) (context : ContextSpecs) :
  plainNode item ->
  noProperties item ->
  truthy (prop item "additionalProperties") = true ->
  (isBoolean (prop item "additionalProperties") = true ->
   prop item "additionalProperties" = JsBool true
   /\ getObject env item name context
      = Fulfilled {| value := "{ [key: string]: any }"; imports := [];
                     schemas := []; isEnum := false; type := "object";
                     isRef := false; schema := None |})
  /\ (isBoolean (prop item "additionalProperties") = false ->
      getObject env item name context
      = (resolvedValue <- resolveValue env (prop item "additionalProperties")
                                       name context ;;
         Fulfilled {| value := "{[key: string]: " ++ value resolvedValue ++ "}";
                      imports := imports resolvedValue;
                      schemas := schemas resolvedValue;
                      isEnum := false; type := "object"; isRef := false;
                      schema := None |})
      /\ forall resolved : ResolverValue,
           settle (resolveValue env (prop item "additionalProperties")
                                name context) = Returned resolved ->
           settle (getObject env item name context)
           = Returned {| value := "{[key: string]: " ++ value resolved ++ "}";
                         imports := imports resolved;
                         schemas := schemas resolved;
                         isEnum := false; type := "object"; isRef := false;
                         schema := None |}).
Proof.
  intros Hplain Hnone Htruthy.
  rewrite (getObject_without_properties env item name context Hplain Hnone).
  rewrite Htruthy. split.
  - intros Hbool. rewrite Hbool. split; [| reflexivity].
    destruct (prop item "additionalProperties") as [| | [|] | | | |];
      try discriminate; reflexivity.
  - intros Hschema. rewrite Hschema. split; [reflexivity |].
    intros resolved Hresolved. now rewrite settle_await, Hresolved.
Qed.

Lemma getObject_additionalProperties_witness :
  getObject Sample.env Sample.openObject None Sample.petstore
  = Fulfilled {| value := "{ [key: string]: any }"; imports := [];
                 schemas := []; isEnum := false; type := "object";
                 isRef := false; schema := None |}
  /\ settle (getObject Sample.env Sample.dictionary None Sample.petstore)
     = Returned {| value := "{[key: string]: string}"; imports := [];
                   schemas := []; isEnum := false; type := "object";
                   isRef := false; schema := None |}.
Proof.
  split.
  - refine (proj2 (proj1 (getObject_additionalProperties
                            Sample.env Sample.openObject None Sample.petstore
                            _ _ eq_refl) eq_refl)).
    + repeat split; reflexivity.
    + now left.
  - refine (proj2 (proj2 (getObject_additionalProperties
                            Sample.env Sample.dictionary None Sample.petstore
                            _ _ eq_refl) eq_refl)
              {| value := "string"; imports := []; schemas := [];
                 isEnum := false; type := "string"; isRef := false;
                 schema := None |} eq_refl).
    + repeat split; reflexivity.
    + now left.
Defined.

(** C6. A node that is not [null], is not a reference, carries no truthy
    composition keyword, has no property to declare and no truthy
    [additionalProperties] is resolved at once, without failure, to the
    empty record when its [type] is the string [object] and to [unknown]
    otherwise, with no import and no nested schema. *)
Theorem getObject_fallback (env : Collaborators) (item : JsValue)
    (name : option string) (context : ContextSpecs) :
  plainNode item ->
  noProperties item ->
  truthy (prop item "additionalProperties") = false ->
  getObject env item name context
  = Fulfilled {| value := if strictEqString (prop item "type") "object"
                          then "{}" else "unknown";
                 imports := []; schemas := []; isEnum := false;
                 type := "object"; isRef := false; schema := None |}
  /\ (strictEqString (prop item "type") "object" = true
      <-> prop item "type" = JsString "object").
Proof.
  intros Hplain Hnone Hfalsy.
  rewrite (getObject_without_properties env item name context Hplain Hnone).
  rewrite Hfalsy. split; [reflexivity |].
  unfold strictEqString. destruct (prop item "type"); try (split; discriminate).
  rewrite String.eqb_eq. split; congruence.
Qed.

Lemma getObject_fallback_witness :
  getObject Sample.env Sample.bareObject None Sample.petstore
  = Fulfilled {| value := "{}"; imports := []; schemas := [];
                 isEnum := false; type := "object"; isRef := false;
                 schema := None |}
  /\ getObject Sample.env (JsObject []) None Sample.petstore
     = Fulfilled {| value := "unknown"; imports := []; schemas := [];
                    isEnum := false; type := "object"; isRef := false;
                    schema := None |}.
Proof.
  split.
  - refine (proj1 (getObject_fallback Sample.env Sample.bareObject None
                     Sample.petstore _ _ eq_refl)).
    + repeat split; reflexivity.
    + now left.
  - refine (proj1 (getObject_fallback Sample.env (JsObject []) None
                     Sample.petstore _ _ eq_refl)).
    + repeat split; reflexivity.
    + now left.
Defined.

(* ----------------------------------------------------------------- *)
(** *** The markers of a member *)







(* ----------------------------------------------------------------- *)
(** *** The resolver at work *)

Example sample_pet_body :
  settle (getObject Sample.env Sample.pet (Some "pet") Sample.petstore)
  = Returned
      {| value := "{" ++ nl ++ "  id: number;"
                      ++ nl ++ "  status?: string;"
                      ++ nl ++ "  readonly tag?: string;"
                      ++ nl ++ "}";
         imports := [];
         schemas := [JsString "PetId"; JsString "PetStatusProperty";
                     JsString "PetTag"];
         isEnum := false; type := "object"; isRef := false;
         schema := Some (JsObject []) |}.
Proof.
  reflexivity.
Qed.

Example sample_null_member_rejects :
  settle (getObject Sample.env
            (JsObject [("properties", JsObject [("a", JsNull)])])
            None Sample.petstore)
  = Thrown (TypeError "Cannot read properties of null or undefined").
Proof.
  reflexivity.
Qed.

Example sample_empty_properties_fall_through :
  getObject Sample.env
    (JsObject [("type", JsString "object"); ("properties", JsObject [])])
    (Some "pet") Sample.petstore
  = Fulfilled {| value := "{}"; imports := []; schemas := [];
                 isEnum := false; type := "object"; isRef := false;
                 schema := None |}.
Proof.
  reflexivity.
Qed.

(* ================================================================= *)
(** ** Properties of the type guards *)

(** X1. [isNull] compares the text [typeof] answers with [null] and so
    holds of no value, [null] included. *)
Theorem isNull_never (x : JsValue) : isNull x = false.
Proof.
  reflexivity.
Qed.

(** X2. At most one of [isString], [isNumber], [isBoolean], [isUndefined]
    and [isObject] holds of a value, and none holds exactly of [null] and
    of arrays. *)
Theorem guards_exclusive (x : JsValue) :
  let hits := filter (fun b : bool => b)
                [isString x; isNumber x; isBoolean x; isUndefined x; isObject x] in
  List.length hits <= 1
  /\ (hits = [] <-> x = JsNull \/ exists elements, x = JsArray elements).
Proof.
  destruct x; cbn; (split; [lia |]); split;
    try discriminate; try (intros _; auto; fail);
    try (intros [Hnull | [elements Harr]]; discriminate).
  intros _. right. now eexists.
Qed.

(* ================================================================= *)
(** ** Properties of [getFileInfo] *)

Lemma allPlain_dot (a b : string) : allPlain (a ++ "." ++ b) = false.
Proof.
  induction a as [| c a IH]; [reflexivity |].
  cbn [append allPlain]. change (a ++ String "." b) with (a ++ "." ++ b).
  rewrite IH. apply Bool.andb_false_r.
Qed.

Lemma stripExtension_split (s : string) :
  exists suffix,
    s = stripExtension s ++ suffix
    /\ (suffix = EmptyString
        \/ exists ext, suffix = "." ++ ext
                       /\ nonEmpty ext = true /\ allPlain ext = true).
Proof.
  induction s as [| c rest IH].
  - exists EmptyString. split; [reflexivity | now left].
  - cbn [stripExtension].
    destruct (Ascii.eqb c "." && nonEmpty rest && allPlain rest) eqn:Hmatch.
    + apply Bool.andb_true_iff in Hmatch as [Hmatch Hplain].
      apply Bool.andb_true_iff in Hmatch as [Hdot Hrest].
      apply Ascii.eqb_eq in Hdot. subst c.
      exists (String "." rest). split; [reflexivity |].
      right. exists rest. auto.
    + destruct IH as [suffix [Heq Hshape]].
      exists suffix. split; [| exact Hshape].
      cbn [append]. now rewrite <- Heq.
Qed.

(** X3. Removing the extension of a path that ends in a dot followed by at
    least one character, none of them a dot or a slash, gives back exactly
    what precedes that dot, whatever dots and slashes it contains. *)
Theorem stripExtension_last_extension (base ext : string) :
  nonEmpty ext = true ->
  allPlain ext = true ->
  stripExtension (base ++ "." ++ ext) = base.
Proof.
  intros Hnonempty Hplain. induction base as [| c base IH].
  - cbn [append stripExtension]. rewrite Hnonempty, Hplain. reflexivity.
  - cbn [append stripExtension].
    change (base ++ String "." ext) with (base ++ "." ++ ext).
    rewrite allPlain_dot, Bool.andb_false_r. now rewrite IH.
Qed.

Lemma stripExtension_last_extension_witness :
  stripExtension ("src/api/pets.d" ++ "." ++ "ts") = "src/api/pets.d".
Proof.
  apply stripExtension_last_extension; reflexivity.
Defined.

Lemma allPlain_slash (a b : string) : allPlain (a ++ "/" ++ b) = false.
Proof.
  induction a as [| c a IH]; [reflexivity |].
  cbn [append allPlain]. change (a ++ String "/" b) with (a ++ "/" ++ b).
  rewrite IH. apply Bool.andb_false_r.
Qed.

(** X19. Removing the extension never touches the directory part of a
    path: a dot in a directory name is left alone, and the extension of
    [dir/file] is removed from [file] only. *)
Theorem stripExtension_keeps_directory (dir file : string) :
  stripExtension (dir ++ "/" ++ file) = dir ++ "/" ++ stripExtension file.
Proof.
  induction dir as [| c dir IH].
  - reflexivity.
  - cbn [append stripExtension].
    change (dir ++ String "/" file) with (dir ++ "/" ++ file).
    rewrite allPlain_slash, Bool.andb_false_r. now rewrite IH.
Qed.

(** X4. The [pathWithoutExtension] of a file info is a prefix of its
    [path], and what is cut off is either nothing or a dot followed by one
    or more characters that are neither dots nor slashes. *)
Theorem getFileInfo_pathWithoutExtension (lib : Upath.Lib)
    (target backupFilename extension : option string) :
  exists suffix,
    FileInfo.path (getFileInfo lib target backupFilename extension)
    = FileInfo.pathWithoutExtension
        (getFileInfo lib target backupFilename extension) ++ suffix
    /\ (suffix = EmptyString
        \/ exists ext, suffix = "." ++ ext
                       /\ nonEmpty ext = true /\ allPlain ext = true).
Proof.
  unfold getFileInfo. cbn [FileInfo.path FileInfo.pathWithoutExtension].
  apply stripExtension_split.
Qed.

(** X5. For a target that is a file, the [filename] and the [path] of the
    file info are the same whether the extension is given with or without
    its leading dot. *)
Theorem getFileInfo_extension_dot_optional (lib : Upath.Lib)
    (target : string) (backupFilename : option string) (extension : string) :
  isDirectory lib target = false ->
  startsWith extension "." = false ->
  FileInfo.filename
    (getFileInfo lib (Some target) backupFilename (Some extension))
  = FileInfo.filename
      (getFileInfo lib (Some target) backupFilename (Some ("." ++ extension)))
  /\ FileInfo.path
       (getFileInfo lib (Some target) backupFilename (Some extension))
     = FileInfo.path
         (getFileInfo lib (Some target) backupFilename (Some ("." ++ extension))).
Proof.
  intros Hfile Hnodot. unfold getFileInfo.
  cbn [FileInfo.filename FileInfo.path]. rewrite Hfile.
  split; [| reflexivity]. f_equal.
  unfold dottedExtension. destruct extension as [| c rest]; [reflexivity |].
  cbn [startsWith] in Hnodot.
  destruct (Ascii.eqb_spec c ".") as [-> | Hc]; [| reflexivity].
  rewrite Ascii.eqb_refl in Hnodot. destruct rest; discriminate.
Qed.

Lemma getFileInfo_extension_dot_optional_witness :
  FileInfo.filename
    (getFileInfo FileSample.lib (Some "src/pets.ts") None (Some "ts"))
  = FileInfo.filename
      (getFileInfo FileSample.lib (Some "src/pets.ts") None (Some ("." ++ "ts")))
  /\ FileInfo.path
       (getFileInfo FileSample.lib (Some "src/pets.ts") None (Some "ts"))
     = FileInfo.path
         (getFileInfo FileSample.lib (Some "src/pets.ts") None
                      (Some ("." ++ "ts"))).
Proof.
  apply getFileInfo_extension_dot_optional; reflexivity.
Defined.

(* ================================================================= *)
(** ** Properties of [loadFile] *)

Lemma settle_tryCatch {A B : Type} (p : Promise A) (body : A -> Promise B)
    (handler : JsError -> Promise B) :
  settle (tryCatch p body handler)
  = match settle p with
    | Returned a => settle (body a)
    | Thrown e => settle (handler e)
    end.
Proof.
  induction p as [a | e | p IH]; simpl; auto.
Qed.

Lemma await_ext {A B : Type} (p : Promise A) (k1 k2 : A -> Promise B) :
  (forall a, k1 a = k2 a) -> await p k1 = await p k2.
Proof.
  intros Hk. induction p as [a | e | p IH]; simpl; [apply Hk | reflexivity |].
  now rewrite IH.
Qed.

Lemma cacheGet_cacheSet_same (k : string) (v : CacheEntry) (c : Cache) :
  cacheGet k (cacheSet k v c) = Some v.
Proof.
  unfold cacheGet, cacheSet. cbn [lookup]. now rewrite String.eqb_refl.
Qed.

Lemma cacheGet_cacheSet_other (k k' : string) (v : CacheEntry) (c : Cache) :
  k' <> k -> cacheGet k' (cacheSet k v c) = cacheGet k' c.
Proof.
  intros Hne. unfold cacheGet, cacheSet. cbn [lookup].
  destruct (String.eqb_spec k' k) as [E | _]; [contradiction |].
  induction c as [| [k0 v0] c IH]; [reflexivity |].
  cbn [filter fst lookup].
  destruct (String.eqb_spec k0 k) as [-> | Hk0]; cbn [negb].
  - destruct (String.eqb_spec k' k) as [E | _]; [contradiction | exact IH].
  - cbn [lookup]. destruct (String.eqb k' k0); [reflexivity | exact IH].
Qed.

Lemma startsWith_append (t post : string) : startsWith (t ++ post) t = true.
Proof.
  induction t as [| c t IH]; [reflexivity |].
  cbn [append startsWith]. now rewrite Ascii.eqb_refl, IH.
Qed.

Lemma includesText_middle (pre t post : string) :
  includesText (pre ++ t ++ post) t = true.
Proof.
  induction pre as [| c pre IH].
  - cbn [append]. destruct (t ++ post) eqn:Heq; cbn [includesText];
      rewrite <- Heq, startsWith_append; reflexivity.
  - cbn [append includesText]. rewrite IH. apply Bool.orb_true_r.
Qed.

Lemma ignored_marker (msg marker pre post : string) :
  In marker ignoredMessages ->
  msg = pre ++ marker ++ post ->
  ignored msg = true.
Proof.
  intros Hin ->. unfold ignored. apply existsb_exists.
  exists marker. split; [exact Hin | apply includesText_middle].
Qed.

Lemma truthyText_some (s : string) : truthyText (Some s) = nonEmpty s.
Proof.
  reflexivity.
Qed.

(** X6. [loadFile] never rejects.  It ends with the exit notice exactly
    when no path is located; on a cache hit it returns the cached entry;
    on a miss it is fulfilled with the file the [try] body yields or, when
    that body throws, with the thrown error in [error], and it caches
    what it returns. *)
Theorem loadFile_never_rejects (lib : Upath.Lib) (host : Host)
    (loader : ModuleLoader) (cache : Cache) (filePath : option string)
    (options : option LoadOptions) :
  settle (loadFile lib host loader cache filePath options)
  = Returned
      match locate host filePath options with
      | NotFound notice => Exited notice
      | Found resolvedPath isTS isMjs =>
          match cacheGet resolvedPath cache with
          | Some (FileEntry loaded) =>
              Completed {| path := Upath.normalizeSafe lib resolvedPath;
                           file := loaded; error := None;
                           cached := Some true |} cache
          | Some (ErrorEntry e) =>
              Completed {| path := Upath.normalizeSafe lib resolvedPath;
                           file := JsUndefined; error := Some e;
                           cached := Some true |} cache
          | None =>
              match settle (loadModule lib host loader options resolvedPath
                                       isTS isMjs) with
              | Returned loaded =>
                  Completed {| path := Upath.normalizeSafe lib resolvedPath;
                               file := loaded; error := None;
                               cached := None |}
                            (cacheSet resolvedPath (FileEntry loaded) cache)
              | Thrown e =>
                  Completed {| path := Upath.normalizeSafe lib resolvedPath;
                               file := JsUndefined; error := Some e;
                               cached := None |}
                            (cacheSet resolvedPath (ErrorEntry e) cache)
              end
          end
      end.
Proof.
  unfold loadFile.
  destruct (locate host filePath options) as [resolvedPath isTS isMjs | notice];
    [| reflexivity].
  destruct (cacheGet resolvedPath cache) as [[loaded | e] |];
    [reflexivity | reflexivity |].
  rewrite settle_tryCatch.
  now destruct (settle (loadModule lib host loader options resolvedPath
                          isTS isMjs)).
Qed.

(** X7. An explicit path is taken as it is: it resolves without any check
    that the file exists and whatever default name is given, it is flagged
    as TypeScript exactly when it ends in [.ts], and it is never flagged as
    an [.mjs] module. *)
Theorem locate_explicit_path (host : Host) (filePath : string)
    (options : option LoadOptions) :
  nonEmpty filePath = true ->
  nonEmpty (resolve1 host filePath) = true ->
  locate host (Some filePath) options
  = Found (resolve1 host filePath) (endsWith filePath ".ts") false.
Proof.
  intros Hpath Hresolved. unfold locate. cbn [truthyText].
  rewrite Hpath. cbn [truthyText]. rewrite Hresolved. reflexivity.
Qed.

Lemma locate_explicit_path_witness :
  locate FileSample.host (Some "missing.mjs")
         (FileSample.byName "orval.config")
  = Found "/work/missing.mjs" false false.
Proof.
  apply (locate_explicit_path FileSample.host "missing.mjs"
           (FileSample.byName "orval.config")); reflexivity.
Defined.

(** X8. Without an explicit path, a located file exists and is the first
    existing one among [<name>.js], [<name>.mjs] and [<name>.ts] under the
    root, in this order; the [.mjs] flag is set only for the second and
    the TypeScript flag only for the third. *)
Theorem locate_default_precedence (host : Host) (filePath : option string)
    (options : option LoadOptions) (resolvedPath : string) (isTS isMjs : bool) :
  (forall dir f, nonEmpty (resolve2 host dir f) = true) ->
  truthyText filePath = false ->
  locate host filePath options = Found resolvedPath isTS isMjs ->
  exists name,
    optionDefaultFileName options = Some name
    /\ existsSync host resolvedPath = true
    /\ let candidate ext :=
         resolve2 host (optionRoot host options) (name ++ ext) in
       (resolvedPath = candidate ".js" /\ isTS = false /\ isMjs = false)
       \/ (existsSync host (candidate ".js") = false
           /\ resolvedPath = candidate ".mjs" /\ isTS = false /\ isMjs = true)
       \/ (existsSync host (candidate ".js") = false
           /\ existsSync host (candidate ".mjs") = false
           /\ resolvedPath = candidate ".ts" /\ isTS = true /\ isMjs = false).
Proof.
  intros Hresolved Hnopath. unfold locate. rewrite Hnopath.
  destruct (optionDefaultFileName options) as [name |] eqn:Hname;
    [| discriminate].
  rewrite truthyText_some.
  destruct (nonEmpty name); [| discriminate].
  destruct (existsSync host (resolve2 host (optionRoot host options)
                               (name ++ ".js"))) eqn:Hjs.
  { cbn; repeat (rewrite Hresolved; cbn).
    intros Hfound. injection Hfound as <- <- <-.
    exists name. split; [reflexivity |]. split; [exact Hjs |].
    left. auto. }
  cbn [truthyText negb].
  destruct (existsSync host (resolve2 host (optionRoot host options)
                               (name ++ ".mjs"))) eqn:Hmjs.
  { cbn; repeat (rewrite Hresolved; cbn).
    intros Hfound. injection Hfound as <- <- <-.
    exists name. split; [reflexivity |]. split; [exact Hmjs |].
    right. left. auto. }
  cbn [truthyText negb].
  destruct (existsSync host (resolve2 host (optionRoot host options)
                               (name ++ ".ts"))) eqn:Hts.
  { cbn; repeat (rewrite Hresolved; cbn).
    intros Hfound. injection Hfound as <- <- <-.
    exists name. split; [reflexivity |]. split; [exact Hts |].
    right. right. auto. }
  cbn [truthyText negb]. discriminate.
Qed.

Lemma sample_resolve2_nonEmpty (dir f : string) :
  nonEmpty (resolve2 FileSample.host dir f) = true.
Proof.
  destruct dir; reflexivity.
Defined.

Lemma locate_default_precedence_witness :
  exists name,
    optionDefaultFileName (FileSample.byName "orval.config") = Some name
    /\ existsSync FileSample.host "/work/orval.config.mjs" = true
    /\ let candidate ext :=
         resolve2 FileSample.host
                  (optionRoot FileSample.host (FileSample.byName "orval.config"))
                  (name ++ ext) in
       ("/work/orval.config.mjs" = candidate ".js" /\ false = false /\ true = false)
       \/ (existsSync FileSample.host (candidate ".js") = false
           /\ "/work/orval.config.mjs" = candidate ".mjs"
           /\ false = false /\ true = true)
       \/ (existsSync FileSample.host (candidate ".js") = false
           /\ existsSync FileSample.host (candidate ".mjs") = false
           /\ "/work/orval.config.mjs" = candidate ".ts"
           /\ false = true /\ true = false).
Proof.
  apply (locate_default_precedence FileSample.host None
           (FileSample.byName "orval.config") "/work/orval.config.mjs"
           false true).
  - exact sample_resolve2_nonEmpty.
  - reflexivity.
  - reflexivity.
Defined.

(** X9. The process exits only without an explicit path: either no default
    name is given and the notice is [File not found], or none of
    [<name>.js], [<name>.mjs] and [<name>.ts] exists under the root and the
    notice lists the three extensions.  The notice that quotes an explicit
    path is never produced. *)
Theorem locate_not_found (host : Host) (filePath : option string)
    (options : option LoadOptions) (notice : string) :
  (forall p, nonEmpty (resolve1 host p) = true) ->
  (forall dir f, nonEmpty (resolve2 host dir f) = true) ->
  locate host filePath options = NotFound notice ->
  truthyText filePath = false
  /\ ((truthyText (optionDefaultFileName options) = false
       /\ notice = "File not found")
      \/ exists name,
           optionDefaultFileName options = Some name
           /\ notice = "File not found => " ++ name ++ ".{js,mjs,ts}"
           /\ let candidate ext :=
                resolve2 host (optionRoot host options) (name ++ ext) in
              existsSync host (candidate ".js") = false
              /\ existsSync host (candidate ".mjs") = false
              /\ existsSync host (candidate ".ts") = false).
Proof.
  intros Hresolve1 Hresolve2 Hloc. unfold locate in Hloc.
  destruct (truthyText filePath) eqn:Hpath.
  { cbn in Hloc. rewrite Hresolve1 in Hloc. discriminate. }
  split; [reflexivity |].
  destruct (optionDefaultFileName options) as [name |] eqn:Hname.
  2:{ cbn in Hloc. injection Hloc as <-. left. auto. }
  rewrite truthyText_some in *.
  destruct (nonEmpty name) eqn:Hnonempty.
  2:{ cbn in Hloc. injection Hloc as <-. left. auto. }
  destruct (existsSync host (resolve2 host (optionRoot host options)
                               (name ++ ".js"))) eqn:Hjs.
  { cbn in Hloc; repeat (rewrite Hresolve2 in Hloc; cbn in Hloc). discriminate. }
  cbn [truthyText negb] in Hloc.
  destruct (existsSync host (resolve2 host (optionRoot host options)
                               (name ++ ".mjs"))) eqn:Hmjs.
  { cbn in Hloc; repeat (rewrite Hresolve2 in Hloc; cbn in Hloc). discriminate. }
  cbn [truthyText negb] in Hloc.
  destruct (existsSync host (resolve2 host (optionRoot host options)
                               (name ++ ".ts"))) eqn:Hts.
  { cbn in Hloc; repeat (rewrite Hresolve2 in Hloc; cbn in Hloc). discriminate. }
  cbn [truthyText negb] in Hloc. injection Hloc as <-.
  right. exists name. auto.
Qed.

Lemma locate_not_found_witness :
  truthyText None = false
  /\ ((truthyText (optionDefaultFileName (FileSample.byName "petstore")) = false
       /\ "File not found => petstore.{js,mjs,ts}" = "File not found")
      \/ exists name,
           optionDefaultFileName (FileSample.byName "petstore") = Some name
           /\ "File not found => petstore.{js,mjs,ts}"
              = "File not found => " ++ name ++ ".{js,mjs,ts}"
           /\ let candidate ext :=
                resolve2 FileSample.host
                         (optionRoot FileSample.host
                                     (FileSample.byName "petstore"))
                         (name ++ ext) in
              existsSync FileSample.host (candidate ".js") = false
              /\ existsSync FileSample.host (candidate ".mjs") = false
              /\ existsSync FileSample.host (candidate ".ts") = false).
Proof.
  apply (locate_not_found FileSample.host None (FileSample.byName "petstore")
           "File not found => petstore.{js,mjs,ts}").
  - intros p. reflexivity.
  - exact sample_resolve2_nonEmpty.
  - reflexivity.
Defined.

(** X10. Once a call of [loadFile] has completed, a second call with the
    same arguments on the cache it left answers from the cache: it returns
    the same path, file and error with [cached] set, leaves the cache as it
    is, and does not depend on [require] or the bundler, so a failed load
    is not retried. *)
Theorem loadFile_second_call_cached (lib : Upath.Lib) (host : Host)
    (loader : ModuleLoader) (cache : Cache) (filePath : option string)
    (options : option LoadOptions) (result : LoadResult) (cache' : Cache) :
  settle (loadFile lib host loader cache filePath options)
  = Returned (Completed result cache') ->
  forall loader' : ModuleLoader,
    loadFile lib host loader' cache' filePath options
    = Fulfilled (Completed {| path := path result; file := file result;
                              error := error result; cached := Some true |}
                           cache').
Proof.
  unfold loadFile.
  destruct (locate host filePath options) as [resolvedPath isTS isMjs | notice];
    [| discriminate].
  destruct (cacheGet resolvedPath cache) as [entry |] eqn:Hentry.
  - cbn [settle]. intros Hdone loader'. injection Hdone as <- <-.
    rewrite Hentry. reflexivity.
  - rewrite settle_tryCatch.
    destruct (settle (loadModule lib host loader options resolvedPath isTS isMjs))
      as [loaded | e]; cbn [settle]; intros Hdone loader';
      injection Hdone as <- <-; rewrite cacheGet_cacheSet_same; reflexivity.
Qed.

Lemma loadFile_second_call_cached_witness :
  loadFile FileSample.lib FileSample.host FileSample.loader
           (cacheSet "/work/broken.js"
                     (ErrorEntry (Failure "unavailable")) [])
           (Some "broken.js") None
  = Fulfilled
      (Completed {| path := "/work/broken.js"; file := JsUndefined;
                    error := Some (Failure "unavailable");
                    cached := Some true |}
                 (cacheSet "/work/broken.js"
                           (ErrorEntry (Failure "unavailable")) [])).
Proof.
  exact (loadFile_second_call_cached
           FileSample.lib FileSample.host FileSample.failing []
           (Some "broken.js") None
           {| path := "/work/broken.js"; file := JsUndefined;
              error := Some (Failure "unavailable"); cached := None |}
           (cacheSet "/work/broken.js" (ErrorEntry (Failure "unavailable")) [])
           eq_refl FileSample.loader).
Defined.

(** X11. A completed call of [loadFile] changes the cache at most at the
    resolved path: that path is bound afterwards, an entry it already had
    is kept, and every other path is bound as before. *)
Theorem loadFile_cache_frame (lib : Upath.Lib) (host : Host)
    (loader : ModuleLoader) (cache : Cache) (filePath : option string)
    (options : option LoadOptions) (result : LoadResult) (cache' : Cache)
    (resolvedPath : string) (isTS isMjs : bool) :
  locate host filePath options = Found resolvedPath isTS isMjs ->
  settle (loadFile lib host loader cache filePath options)
  = Returned (Completed result cache') ->
  cacheGet resolvedPath cache' <> None
  /\ (forall entry, cacheGet resolvedPath cache = Some entry ->
                    cache' = cache)
  /\ (forall other, other <> resolvedPath ->
                    cacheGet other cache' = cacheGet other cache).
Proof.
  intros Hloc. unfold loadFile. rewrite Hloc.
  destruct (cacheGet resolvedPath cache) as [entry |] eqn:Hentry.
  - cbn [settle]. intros Hdone. injection Hdone as <- <-.
    rewrite Hentry. repeat split; congruence.
  - rewrite settle_tryCatch.
    destruct (settle (loadModule lib host loader options resolvedPath isTS isMjs))
      as [loaded | e]; cbn [settle]; intros Hdone; injection Hdone as <- <-;
      rewrite cacheGet_cacheSet_same;
      (split; [discriminate | split; [discriminate |]]);
      intros other Hother; now apply cacheGet_cacheSet_other.
Qed.

Lemma loadFile_cache_frame_witness :
  cacheGet "/work/orval.config.mjs"
           (cacheSet "/work/orval.config.mjs"
                     (FileEntry (JsObject [("code", JsString "bundled:/work/orval.config.mjs")]))
                     [("/work/other.js", FileEntry JsNull)])
  <> None
  /\ (forall entry,
         cacheGet "/work/orval.config.mjs"
                  [("/work/other.js", FileEntry JsNull)] = Some entry ->
         cacheSet "/work/orval.config.mjs"
                  (FileEntry (JsObject [("code", JsString "bundled:/work/orval.config.mjs")]))
                  [("/work/other.js", FileEntry JsNull)]
         = [("/work/other.js", FileEntry JsNull)])
  /\ (forall other, other <> "/work/orval.config.mjs" ->
         cacheGet other
                  (cacheSet "/work/orval.config.mjs"
                            (FileEntry (JsObject [("code", JsString "bundled:/work/orval.config.mjs")]))
                            [("/work/other.js", FileEntry JsNull)])
         = cacheGet other [("/work/other.js", FileEntry JsNull)]).
Proof.
  apply (loadFile_cache_frame
           FileSample.lib FileSample.host FileSample.loader
           [("/work/other.js", FileEntry JsNull)] None
           (FileSample.byName "orval.config")
           {| path := "/work/orval.config.mjs";
              file := JsObject [("code", JsString "bundled:/work/orval.config.mjs")];
              error := None; cached := None |}
           _ "/work/orval.config.mjs" false true); reflexivity.
Defined.

Lemma loadFromBundledFile_same (loader loader' : ModuleLoader)
    (fileName bundledCode : string) (byDefault : bool) :
  (forall f code, requireBundled loader' f code = requireBundled loader f code) ->
  loadFromBundledFile loader' fileName bundledCode byDefault
  = loadFromBundledFile loader fileName bundledCode byDefault.
Proof.
  intros Hreq. unfold loadFromBundledFile. now rewrite Hreq.
Qed.

(** X12. A path flagged as TypeScript or as an [.mjs] module is never
    passed to [require]: the call goes to the bundler, and two loaders
    that differ only in [require] give the same promise. *)
Theorem loadFile_typescript_skips_require (lib : Upath.Lib) (host : Host)
    (loader loader' : ModuleLoader) (cache : Cache) (filePath : option string)
    (options : option LoadOptions) (resolvedPath : string) (isTS isMjs : bool) :
  locate host filePath options = Found resolvedPath isTS isMjs ->
  isTS || isMjs = true ->
  (forall p mjs dir al,
      bundleFile loader' p mjs dir al = bundleFile loader p mjs dir al) ->
  (forall f code, requireBundled loader' f code = requireBundled loader f code) ->
  loadFile lib host loader' cache filePath options
  = loadFile lib host loader cache filePath options.
Proof.
  intros Hloc Hflag Hbundle Hreq. unfold loadFile. rewrite Hloc.
  destruct (cacheGet resolvedPath cache); [reflexivity |].
  f_equal. unfold loadModule.
  replace (negb isTS && negb isMjs) with false
    by (destruct isTS, isMjs; try reflexivity; discriminate).
  cbn [attempt truthy negb]. rewrite Hbundle.
  apply await_ext. intros code. now apply loadFromBundledFile_same.
Qed.

Lemma loadFile_typescript_skips_require_witness :
  loadFile FileSample.lib FileSample.host
           {| requireModule := fun _ => Thrown (Failure "unavailable");
              bundleFile := bundleFile FileSample.loader;
              requireBundled := requireBundled FileSample.loader |}
           [] (Some "orval.config.ts") None
  = loadFile FileSample.lib FileSample.host FileSample.loader
             [] (Some "orval.config.ts") None.
Proof.
  apply (loadFile_typescript_skips_require
           FileSample.lib FileSample.host FileSample.loader _ []
           (Some "orval.config.ts") None "/work/orval.config.ts" true false);
    reflexivity.
Defined.

(** X13. When [require] throws on a CommonJS path with a message that
    mentions none of the four module-syntax markers, the bundler is not
    tried: the call completes at once with that error in [error], and the
    error is cached under the resolved path. *)
Theorem loadFile_require_error_cached (lib : Upath.Lib) (host : Host)
    (loader : ModuleLoader) (cache : Cache) (filePath : option string)
    (options : option LoadOptions) (resolvedPath : string) (e : JsError) :
  locate host filePath options = Found resolvedPath false false ->
  cacheGet resolvedPath cache = None ->
  requireModule loader resolvedPath = Thrown e ->
  ignored (message e) = false ->
  loadFile lib host loader cache filePath options
  = Fulfilled
      (Completed {| path := Upath.normalizeSafe lib resolvedPath;
                    file := JsUndefined; error := Some e; cached := None |}
                 (cacheSet resolvedPath (ErrorEntry e) cache)).
Proof.
  intros Hloc Hmiss Hthrown Hignored. unfold loadFile.
  rewrite Hloc, Hmiss. unfold loadModule. cbn [negb andb].
  rewrite Hthrown, Hignored. reflexivity.
Qed.

Lemma loadFile_require_error_cached_witness :
  loadFile FileSample.lib FileSample.host FileSample.loader []
           (Some "broken.js") None
  = Fulfilled
      (Completed {| path := "/work/broken.js"; file := JsUndefined;
                    error := Some (Failure "Cannot find module");
                    cached := None |}
                 (cacheSet "/work/broken.js"
                           (ErrorEntry (Failure "Cannot find module")) [])).
Proof.
  apply (loadFile_require_error_cached
           FileSample.lib FileSample.host FileSample.loader []
           (Some "broken.js") None "/work/broken.js"
           (Failure "Cannot find module")); reflexivity.
Defined.

(** X14. When [require] throws with a message that contains one of the
    four module-syntax markers, or returns a falsy export, a CommonJS path
    is loaded exactly as a TypeScript path is: through the bundler. *)
Theorem loadModule_falls_back_to_bundler (lib : Upath.Lib) (host : Host)
    (loader : ModuleLoader) (options : option LoadOptions)
    (resolvedPath : string) :
  (exists e marker pre post,
      requireModule loader resolvedPath = Thrown e
      /\ In marker ignoredMessages
      /\ message e = pre ++ marker ++ post)
  \/ (exists exported,
         requireModule loader resolvedPath = Returned exported
         /\ truthy exported = false) ->
  loadModule lib host loader options resolvedPath false false
  = loadModule lib host loader options resolvedPath true false.
Proof.
  intros [(e & marker & pre & post & Hthrown & Hin & Hmsg)
         | (exported & Hreturned & Hfalsy)];
    unfold loadModule; cbn [negb andb].
  - rewrite Hthrown, (ignored_marker (message e) marker pre post Hin Hmsg).
    reflexivity.
  - rewrite Hreturned. cbn [attempt]. now rewrite Hfalsy.
Qed.

Lemma loadModule_falls_back_to_bundler_witness :
  loadModule FileSample.lib FileSample.host FileSample.loader None
             "/work/esm.js" false false
  = loadModule FileSample.lib FileSample.host FileSample.loader None
               "/work/esm.js" true false.
Proof.
  apply loadModule_falls_back_to_bundler. left.
  exists (Failure "SyntaxError: Cannot use import statement outside a module"),
         "Cannot use import statement", "SyntaxError: ", " outside a module".
  split; [reflexivity |]. split; [now left | reflexivity].
Defined.

(* ================================================================= *)
(** ** Further properties of [getObject] *)

Lemma asyncReduce_from_rejects (env : Collaborators) (item : JsValue)
    (name : option string) (context : ContextSpecs)
    (arr : list (string * JsValue)) (key : string) (memberSchema : JsValue)
    (after : list (string * JsValue)) (e : JsError) :
  settle (resolveObject env memberSchema
                        (memberPropName env name context key) context)
  = Thrown e ->
  forall (before : list (string * JsValue)) (results : list ResolverValue)
         (index : nat) (acc : ResolverValue),
    Forall2 (resolvesTo env name context) before results ->
    settle (asyncReduce_from arr (propertyStep env item name context) index
                             (before ++ (key, memberSchema) :: after) acc)
    = Thrown e.
Proof.
  intros Hreject before results index acc Hall. revert index acc.
  induction Hall as [| entry resolved before results Hentry Hall IH];
    intros index acc.
  - cbn [app asyncReduce_from]. rewrite settle_await.
    unfold propertyStep. now rewrite settle_await, Hreject.
  - cbn [app asyncReduce_from]. rewrite settle_await.
    rewrite (propertyStep_settles env item name context acc entry index arr
               resolved Hentry).
    apply IH.
Qed.

(** X15. The fold over the properties stops at the first member whose
    resolution rejects: [getObject] rejects with that member's error,
    whatever the members declared after it are. *)
Theorem getObject_first_rejection (env : Collaborators) (item : JsValue)
    (name : option string) (context : ContextSpecs)
    (before after : list (string * JsValue)) (key : string)
    (memberSchema : JsValue) (results : list ResolverValue) (e : JsError) :
  plainNode item ->
  truthy (prop item "properties") = true ->
  Object_entries (prop item "properties")
  = (before ++ (key, memberSchema) :: after)%list ->
  Forall2 (resolvesTo env name context) before results ->
  settle (resolveObject env memberSchema
                        (memberPropName env name context key) context)
  = Thrown e ->
  settle (getObject env item name context) = Thrown e.
Proof.
  intros Hplain Hprops Hentries Hall Hreject.
  rewrite (getObject_properties_branch env item name context Hplain Hprops)
    by (rewrite Hentries; now destruct before).
  unfold asyncReduce. rewrite Hentries at 2.
  now apply (asyncReduce_from_rejects env item name context _ key memberSchema
               after e Hreject before results).
Qed.

Lemma getObject_first_rejection_witness :
  settle (getObject
            {| pascal := Sample.capitalise;
               jsDoc := fun _ _ => EmptyString;
               getKey := fun key => key;
               getRefInfo := Sample.lastSegmentInfo;
               combineSchemas := Sample.echoItems;
               resolveObject :=
                 fun node hint context =>
                   if strictEqString (prop node "type") "string"
                   then Pending (Rejected (Failure "unresolved"))
                   else Sample.resolvePrimitive node hint context;
               resolveValue := Sample.resolvePrimitive |}
            Sample.pet (Some "pet") Sample.petstore)
  = Thrown (Failure "unresolved").
Proof.
  apply (getObject_first_rejection _ Sample.pet (Some "pet") Sample.petstore
           [("id", Sample.numberNode)]
           [("tag", JsObject [("type", JsString "string");
                              ("readOnly", JsBool true)])]
           "status" Sample.stringNode
           [Sample.primitive "number" "PetId"]).
  - repeat split; reflexivity.
  - reflexivity.
  - reflexivity.
  - repeat constructor.
  - reflexivity.
Defined.

Lemma propertyStep_keeps_shape (env : Collaborators) (item : JsValue)
    (name : option string) (context : ContextSpecs) (acc stepped : ResolverValue)
    (entry : string * JsValue) (index : nat) (arr : list (string * JsValue)) :
  settle (propertyStep env item name context acc entry index arr)
  = Returned stepped ->
  type stepped = type acc /\ isEnum stepped = isEnum acc
  /\ isRef stepped = isRef acc.
Proof.
  destruct entry as [key memberSchema]. unfold propertyStep.
  rewrite settle_await.
  destruct (settle (resolveObject env memberSchema
                      (memberPropName env name context key) context))
    as [resolved | e]; [| discriminate].
  destruct (readOnlyFlag item memberSchema) as [flag | e]; [| discriminate].
  cbn [attempt settle]. intros Hstep. injection Hstep as <-.
  destruct (Nat.eqb index 0), (Nat.eqb (List.length arr) (S index));
    repeat split; reflexivity.
Qed.

Lemma asyncReduce_from_keeps_shape (env : Collaborators) (item : JsValue)
    (name : option string) (context : ContextSpecs)
    (arr rest : list (string * JsValue)) :
  forall (index : nat) (acc final : ResolverValue),
    settle (asyncReduce_from arr (propertyStep env item name context)
                             index rest acc) = Returned final ->
    type final = type acc /\ isEnum final = isEnum acc
    /\ isRef final = isRef acc.
Proof.
  induction rest as [| entry rest IH]; intros index acc final.
  - cbn [asyncReduce_from settle]. intros Hdone. injection Hdone as <-. auto.
  - cbn [asyncReduce_from]. rewrite settle_await.
    destruct (settle (propertyStep env item name context acc entry index arr))
      as [stepped |] eqn:Hstep; [| discriminate].
    intros Hdone.
    destruct (propertyStep_keeps_shape env item name context acc stepped entry
                index arr Hstep) as (Htype & Henum & Href).
    destruct (IH (S index) stepped final Hdone) as (Htype' & Henum' & Href').
    repeat split; congruence.
Qed.

(** X16. Outside the composition branches, every fulfilled result of
    [getObject] has category [object], is not an enum, and has [isRef] set
    exactly when the node is a reference. *)
Theorem getObject_result_shape (env : Collaborators) (item : JsValue)
    (name : option string) (context : ContextSpecs) (reference : bool)
    (resolved : ResolverValue) :
  isReference item = Returned reference ->
  truthy (prop item "allOf") = false ->
  truthy (prop item "oneOf") = false ->
  truthy (prop item "anyOf") = false ->
  settle (getObject env item name context) = Returned resolved ->
  type resolved = "object" /\ isEnum resolved = false
  /\ isRef resolved = reference.
Proof.
  intros Href Hall Hone Hany. unfold getObject. rewrite Href. cbn [attempt].
  destruct reference.
  { rewrite settle_await.
    destruct (settle (getRefInfo env (prop item "$ref") context));
      [| discriminate].
    cbn [settle]. intros Hdone. injection Hdone as <-. auto. }
  rewrite Hall, Hone, Hany.
  destruct (truthy (prop item "properties")
            && negb (Nat.eqb (List.length (Object_entries (prop item "properties"))) 0)).
  { intros Hdone.
    exact (asyncReduce_from_keeps_shape env item name context _ _ 0
             emptyObject resolved Hdone). }
  destruct (truthy (prop item "additionalProperties")).
  - destruct (isBoolean (prop item "additionalProperties")).
    + cbn [settle]. intros Hdone. injection Hdone as <-. auto.
    + rewrite settle_await.
      destruct (settle (resolveValue env (prop item "additionalProperties")
                          name context)); [| discriminate].
      cbn [settle]. intros Hdone. injection Hdone as <-. auto.
  - cbn [settle]. intros Hdone. injection Hdone as <-. auto.
Qed.

Lemma getObject_result_shape_witness :
  type {| value := "{[key: string]: string}"; imports := [];
             schemas := []; isEnum := false; type := "object";
             isRef := false; schema := None |} = "object"
  /\ isEnum {| value := "{[key: string]: string}"; imports := [];
               schemas := []; isEnum := false; type := "object";
               isRef := false; schema := None |} = false
  /\ isRef {| value := "{[key: string]: string}"; imports := [];
              schemas := []; isEnum := false; type := "object";
              isRef := false; schema := None |} = false.
Proof.
  apply (getObject_result_shape Sample.env Sample.dictionary None
           Sample.petstore false); reflexivity.
Defined.

Lemma memberPropName_ext (env env' : Collaborators) (name : option string)
    (context : ContextSpecs) (key : string) :
  (forall s, pascal env' s = pascal env s) ->
  memberPropName env' name context key = memberPropName env name context key.
Proof.
  intros Hpascal. unfold memberPropName.
  destruct name as [parent |]; [| reflexivity].
  now rewrite (Hpascal parent), (Hpascal key).
Qed.

Lemma propertyStep_ext (env env' : Collaborators) (item : JsValue)
    (name : option string) (context : ContextSpecs) (acc : ResolverValue)
    (entry : string * JsValue) (index : nat) (arr : list (string * JsValue)) :
  (forall s, pascal env' s = pascal env s) ->
  (forall node flag, jsDoc env' node flag = jsDoc env node flag) ->
  (forall key, getKey env' key = getKey env key) ->
  (forall node hint ctx,
      resolveObject env' node hint ctx = resolveObject env node hint ctx) ->
  propertyStep env' item name context acc entry index arr
  = propertyStep env item name context acc entry index arr.
Proof.
  intros Hpascal Hdoc Hkey Hobject. destruct entry as [key memberSchema].
  unfold propertyStep.
  rewrite (memberPropName_ext env env' name context key Hpascal), Hobject.
  apply await_ext. intros resolved. now rewrite Hdoc, Hkey.
Qed.

Lemma asyncReduce_from_ext (env env' : Collaborators) (item : JsValue)
    (name : option string) (context : ContextSpecs)
    (arr rest : list (string * JsValue)) (index : nat) (acc : ResolverValue) :
  (forall s, pascal env' s = pascal env s) ->
  (forall node flag, jsDoc env' node flag = jsDoc env node flag) ->
  (forall key, getKey env' key = getKey env key) ->
  (forall node hint ctx,
      resolveObject env' node hint ctx = resolveObject env node hint ctx) ->
  asyncReduce_from arr (propertyStep env' item name context) index rest acc
  = asyncReduce_from arr (propertyStep env item name context) index rest acc.
Proof.
  intros Hpascal Hdoc Hkey Hobject. revert index acc.
  induction rest as [| entry rest IH]; intros index acc; [reflexivity |].
  cbn [asyncReduce_from].
  rewrite (propertyStep_ext env env' item name context acc entry index arr
             Hpascal Hdoc Hkey Hobject).
  apply await_ext. intros stepped. apply IH.
Qed.

(** X17. On a node that declares properties, [getObject] consults only
    [pascal], [jsDoc], [getKey] and [resolveObject]: its
    [additionalProperties] is never resolved, and neither the reference
    resolver nor the composition combiner is called. *)
Theorem getObject_properties_only_resolveObject (env env' : Collaborators)
    (item : JsValue) (name : option string) (context : ContextSpecs) :
  plainNode item ->
  truthy (prop item "properties") = true ->
  Object_entries (prop item "properties") <> [] ->
  (forall s, pascal env' s = pascal env s) ->
  (forall node flag, jsDoc env' node flag = jsDoc env node flag) ->
  (forall key, getKey env' key = getKey env key) ->
  (forall node hint ctx,
      resolveObject env' node hint ctx = resolveObject env node hint ctx) ->
  getObject env' item name context = getObject env item name context.
Proof.
  intros Hplain Hprops Hentries Hpascal Hdoc Hkey Hobject.
  rewrite !(getObject_properties_branch _ item name context
              Hplain Hprops Hentries).
  unfold asyncReduce.
  now apply asyncReduce_from_ext.
Qed.

Lemma getObject_properties_only_resolveObject_witness :
  getObject
    {| pascal := Sample.capitalise;
       jsDoc := fun _ _ => EmptyString;
       getKey := fun key => key;
       getRefInfo := fun _ _ => Rejected (Failure "unused");
       combineSchemas := fun _ _ _ _ => Rejected (Failure "unused");
       resolveObject := Sample.resolvePrimitive;
       resolveValue := fun _ _ _ => Rejected (Failure "unused") |}
    (JsObject [("properties", JsObject [("id", Sample.numberNode)]);
               ("additionalProperties", Sample.stringNode)])
    None Sample.petstore
  = getObject Sample.env
      (JsObject [("properties", JsObject [("id", Sample.numberNode)]);
                 ("additionalProperties", Sample.stringNode)])
      None Sample.petstore.
Proof.
  apply getObject_properties_only_resolveObject;
    try reflexivity; try discriminate.
  repeat split; reflexivity.
Defined.



